(** * NASA space explorer gallery: a shallow embedding of [js/script.js]
    and of its sibling variant without a date selector.

    The scripts are event-driven glue over the browser: a feed is fetched,
    kept in [allItems], filtered by the date selector, rendered as cards and
    shown in a modal.  The embedding keeps the shape of the code:

    - a JavaScript value read from a feed object is [undefined] or a string,
      and the tests the code performs on it ([v || d], [if (v)], [v === s])
      are written out with JavaScript's truthiness (the empty string is falsy);
    - DOM nodes are trees of elements with the properties the code assigns,
      the listeners it attaches and the children it appends;
    - the page is a record of the globals and of the elements the script
      looks up by id; an element that [getElementById] does not find is [None];
    - handlers live in a state-and-exception monad: a property access on a
      missing element throws a [TypeError], the state written before the throw
      stays written, and [try]/[catch]/[finally] is a combinator;
    - [openModal] calls [getYouTubeThumbnail] and [getYouTubeEmbedUrl], which
      neither script defines: evaluating such a call throws a
      [ReferenceError];
    - the network is an oracle: a handler that may [await fetch] receives the
      outcome the network gives to that call.  The two handlers that await
      are given twice: whole, as the run in which the answer arrives at once
      ([handle], [handle_all]), and split at their [await] ([step], [steps]),
      so that a session can let anything happen between a fetch and its
      answer.  The ghost field [fetches] counts the calls to [fetch].

    The fact panel ([randomFact] and its button) touches none of this state
    and has a model of its own. *)

From Stdlib Require Import String Ascii List Bool ZArith Lia Permutation Sorted.
Import ListNotations.
Open Scope string_scope.

Set Implicit Arguments.

(** ** JavaScript values of the feed *)

(** A field of a feed object: missing ([undefined]) or a string. *)
Inductive value : Type :=
| undefined
| str (s : string).

(** [ToBoolean]: [undefined] and the empty string are falsy. *)
Definition truthy (v : value) : bool :=
  match v with
  | undefined => false
  | str s => negb (String.eqb s "")
  end.

(** [v || d] with a string default. *)
Definition or_default (v : value) (d : string) : string :=
  match v with
  | undefined => d
  | str s => if String.eqb s "" then d else s
  end.

(** [a || b] between two values. *)
Definition or_value (a b : value) : value :=
  if truthy a then a else b.

(** [v === s] against a string. *)
Definition strict_eq (v : value) (s : string) : bool :=
  match v with
  | undefined => false
  | str t => String.eqb t s
  end.

(** [ToString], as applied by a DOM property setter to what it is given. *)
Definition to_string (v : value) : string :=
  match v with
  | undefined => "undefined"
  | str s => s
  end.

(** One entry of the feed.  The names are the JSON keys. *)
Record MediaRecord : Type := mkRecord {
  date : value;
  title : value;
  explanation : value;
  media_type : value;
  url : value;
  hdurl : value;
  thumbnail_url : value
}.

(** ** DOM nodes *)

(** The listeners the scripts attach to nodes they create.  A listener is
    the closure's code together with what it captured. *)
Inductive Listener : Type :=
| CardClick (item : MediaRecord)
| CardKeydown (item : MediaRecord)
| PlayInline (embedUrl : value) (item : MediaRecord).

#[warnings="-register-all"]
Inductive Node : Type :=
| Text (s : string)
| El (tag : string) (props : list (string * string))
     (listeners : list Listener) (children : list Node).

Definition children_of (n : Node) : list Node :=
  match n with
  | Text _ => []
  | El _ _ _ kids => kids
  end.

Definition listeners_of (n : Node) : list Listener :=
  match n with
  | Text _ => []
  | El _ _ ls _ => ls
  end.

Definition tag_of (n : Node) : string :=
  match n with
  | Text _ => "#text"
  | El t _ _ _ => t
  end.

(** The first value assigned to property [k], if any. *)
Fixpoint prop (k : string) (ps : list (string * string)) : option string :=
  match ps with
  | [] => None
  | (k', v) :: ps' => if String.eqb k k' then Some v else prop k ps'
  end.

Definition prop_of (k : string) (n : Node) : option string :=
  match n with
  | Text _ => None
  | El _ ps _ _ => prop k ps
  end.

(** ** What the browser provides *)

(** The two built-ins whose result depends on the engine and its locale data:
    [new Date(s).toLocaleDateString('en-US', {year:'numeric', month:'long',
    day:'numeric'})], which returns a string for every [s] (the string
    [Invalid Date] when [s] does not parse), and [a.localeCompare(b)]. *)
Class Host : Type := {
  toLocaleDateString : string -> string;
  localeCompare : string -> string -> Z
}.

(** [Array.prototype.sort(cmp)] is stable: an element moves in front of
    another one only when [cmp] says it is smaller. *)
Fixpoint sort_insert (A : Type) (cmp : A -> A -> Z) (x : A) (l : list A) : list A :=
  match l with
  | [] => [x]
  | y :: l' => if (cmp x y <=? 0)%Z then x :: y :: l' else y :: sort_insert cmp x l'
  end.

Fixpoint array_sort (A : Type) (cmp : A -> A -> Z) (l : list A) : list A :=
  match l with
  | [] => []
  | x :: l' => sort_insert cmp x (array_sort cmp l')
  end.

(** ** The network *)

(** The top-level value of a parsed body: an array of objects, or anything
    else ([Array.isArray] is false). *)
Inductive Json : Type :=
| JArray (items : list MediaRecord)
| JNotArray.

(** What [resp.json()] meets. *)
Inductive Body : Type :=
| Malformed
| Parsed (j : Json).

(** What [await fetch(url)] meets: the promise rejects (no response at all),
    or resolves to a response with a status and a body. *)
Inductive FetchOutcome : Type :=
| Rejected
| Response (status : nat) (body : Body).

(** [resp.ok]: the status is in the range 200-299. *)
Definition ok (status : nat) : bool :=
  (200 <=? status)%nat && (status <=? 299)%nat.

Inductive Exn : Type :=
| TypeError (msg : string)
| ReferenceError (name : string)
| SyntaxError
| Error (msg : string).

Inductive Completion (A : Type) : Type :=
| Normal (a : A)
| Throw (e : Exn).
Arguments Throw {A} e.

(** [fetchCdnJson], given what the network answers.  Its [catch] logs and
    rethrows, so the exception is the one raised inside. *)
Definition fetchCdnJson (net : FetchOutcome) : Completion (list MediaRecord) :=
  match net with
  | Rejected => Throw (TypeError "Failed to fetch")
  | Response status body =>
      if negb (ok status) then Throw (Error "Network error")
      else match body with
           | Malformed => Throw SyntaxError
           | Parsed JNotArray => Throw (Error "Expected an array from the CDN JSON.")
           | Parsed (JArray data) => Normal data
           end
  end.

(** ** The page *)

(** The globals of the script and the state of the elements it looks up.
    [init] returns before attaching any handler when the fetch button, the
    gallery or (in [script.js]) the date selector is missing, so those are
    plain fields.  The modal elements are looked up at load time and may be
    [null]: [modal] holds the element's [aria-hidden] attribute, [modalMedia]
    its children, the three text elements their [textContent]. *)
Record Page : Type := mkPage {
  allItems : list MediaRecord;
  fetches : nat;
  btnDisabled : bool;
  btnText : string;
  selDisabled : bool;
  selValue : string;
  selOptions : list (string * string);
  gallery : list Node;
  modal : option value;
  modalOverlay : bool;
  modalCloseBtn : bool;
  modalMedia : option (list Node);
  modalTitle : option string;
  modalDate : option string;
  modalExplanation : option string;
  activeElement : option string
}.

(** Writing one field of the page.  A setter takes the record apart, so
    that a chain of writes evaluates from the inside out. *)
Definition set_allItems (x : list MediaRecord) (p : Page) : Page :=
  match p with
  | mkPage f0 f1 f2 f3 f4 f5 f6 f7 f8 f9 f10 f11 f12 f13 f14 f15 =>
      mkPage x f1 f2 f3 f4 f5 f6 f7 f8 f9 f10 f11 f12 f13 f14 f15
  end.

Definition set_fetches (x : nat) (p : Page) : Page :=
  match p with
  | mkPage f0 f1 f2 f3 f4 f5 f6 f7 f8 f9 f10 f11 f12 f13 f14 f15 =>
      mkPage f0 x f2 f3 f4 f5 f6 f7 f8 f9 f10 f11 f12 f13 f14 f15
  end.

Definition set_btnDisabled (x : bool) (p : Page) : Page :=
  match p with
  | mkPage f0 f1 f2 f3 f4 f5 f6 f7 f8 f9 f10 f11 f12 f13 f14 f15 =>
      mkPage f0 f1 x f3 f4 f5 f6 f7 f8 f9 f10 f11 f12 f13 f14 f15
  end.

Definition set_btnText (x : string) (p : Page) : Page :=
  match p with
  | mkPage f0 f1 f2 f3 f4 f5 f6 f7 f8 f9 f10 f11 f12 f13 f14 f15 =>
      mkPage f0 f1 f2 x f4 f5 f6 f7 f8 f9 f10 f11 f12 f13 f14 f15
  end.

Definition set_selDisabled (x : bool) (p : Page) : Page :=
  match p with
  | mkPage f0 f1 f2 f3 f4 f5 f6 f7 f8 f9 f10 f11 f12 f13 f14 f15 =>
      mkPage f0 f1 f2 f3 x f5 f6 f7 f8 f9 f10 f11 f12 f13 f14 f15
  end.

Definition set_selValue (x : string) (p : Page) : Page :=
  match p with
  | mkPage f0 f1 f2 f3 f4 f5 f6 f7 f8 f9 f10 f11 f12 f13 f14 f15 =>
      mkPage f0 f1 f2 f3 f4 x f6 f7 f8 f9 f10 f11 f12 f13 f14 f15
  end.

Definition set_selOptions (x : list (string * string)) (p : Page) : Page :=
  match p with
  | mkPage f0 f1 f2 f3 f4 f5 f6 f7 f8 f9 f10 f11 f12 f13 f14 f15 =>
      mkPage f0 f1 f2 f3 f4 f5 x f7 f8 f9 f10 f11 f12 f13 f14 f15
  end.

Definition set_gallery (x : list Node) (p : Page) : Page :=
  match p with
  | mkPage f0 f1 f2 f3 f4 f5 f6 f7 f8 f9 f10 f11 f12 f13 f14 f15 =>
      mkPage f0 f1 f2 f3 f4 f5 f6 x f8 f9 f10 f11 f12 f13 f14 f15
  end.

Definition set_modal (x : option value) (p : Page) : Page :=
  match p with
  | mkPage f0 f1 f2 f3 f4 f5 f6 f7 f8 f9 f10 f11 f12 f13 f14 f15 =>
      mkPage f0 f1 f2 f3 f4 f5 f6 f7 x f9 f10 f11 f12 f13 f14 f15
  end.

Definition set_modalMedia (x : option (list Node)) (p : Page) : Page :=
  match p with
  | mkPage f0 f1 f2 f3 f4 f5 f6 f7 f8 f9 f10 f11 f12 f13 f14 f15 =>
      mkPage f0 f1 f2 f3 f4 f5 f6 f7 f8 f9 f10 x f12 f13 f14 f15
  end.

Definition set_modalTitle (x : option string) (p : Page) : Page :=
  match p with
  | mkPage f0 f1 f2 f3 f4 f5 f6 f7 f8 f9 f10 f11 f12 f13 f14 f15 =>
      mkPage f0 f1 f2 f3 f4 f5 f6 f7 f8 f9 f10 f11 x f13 f14 f15
  end.

Definition set_modalDate (x : option string) (p : Page) : Page :=
  match p with
  | mkPage f0 f1 f2 f3 f4 f5 f6 f7 f8 f9 f10 f11 f12 f13 f14 f15 =>
      mkPage f0 f1 f2 f3 f4 f5 f6 f7 f8 f9 f10 f11 f12 x f14 f15
  end.

Definition set_modalExplanation (x : option string) (p : Page) : Page :=
  match p with
  | mkPage f0 f1 f2 f3 f4 f5 f6 f7 f8 f9 f10 f11 f12 f13 f14 f15 =>
      mkPage f0 f1 f2 f3 f4 f5 f6 f7 f8 f9 f10 f11 f12 f13 x f15
  end.

Definition set_activeElement (x : option string) (p : Page) : Page :=
  match p with
  | mkPage f0 f1 f2 f3 f4 f5 f6 f7 f8 f9 f10 f11 f12 f13 f14 f15 =>
      mkPage f0 f1 f2 f3 f4 f5 f6 f7 f8 f9 f10 f11 f12 f13 f14 x
  end.

(** ** Handlers: state and exceptions *)

(** A computation reads and writes the page and completes normally or by
    throwing; what it wrote before throwing is kept. *)
Definition M (A : Type) : Type := Page -> Completion A * Page.

Definition ret (A : Type) (a : A) : M A := fun p => (Normal a, p).

Definition bind (A B : Type) (m : M A) (k : A -> M B) : M B :=
  fun p => match m p with
           | (Normal a, p') => k a p'
           | (Throw e, p') => (Throw e, p')
           end.

Definition throw (A : Type) (e : Exn) : M A := fun p => (Throw e, p).

(** An identifier that no script of the page binds: evaluating it throws a
    [ReferenceError].  [openModal] calls [getYouTubeThumbnail] and
    [getYouTubeEmbedUrl], and neither script defines or imports them. *)
Definition unbound (name : string) : M value :=
  fun p => (Throw (ReferenceError name), p).

Definition gets (A : Type) (f : Page -> A) : M A := fun p => (Normal (f p), p).

Definition modify (f : Page -> Page) : M unit := fun p => (Normal tt, f p).

(** A completion obtained outside the monad ([await] of a promise). *)
Definition lift (A : Type) (c : Completion A) : M A := fun p => (c, p).

(** [try { body } catch (err) { handler } finally { final }]: the [finally]
    block runs on every path, and an exception of the [catch] block is
    rethrown after it. *)
Definition try_catch_finally (body : M unit) (handler : M unit) (final : M unit) : M unit :=
  fun p => match body p with
           | (Normal _, p1) => final p1
           | (Throw _, p1) =>
               match handler p1 with
               | (Normal _, p2) => final p2
               | (Throw e, p2) =>
                   match final p2 with
                   | (Normal _, p3) => (Throw e, p3)
                   | thrown => thrown
                   end
               end
           end.

(** [try { body } catch (err) { handler }]. *)
Definition try_catch (body : M unit) (handler : M unit) : M unit :=
  fun p => match body p with
           | (Normal _, p') => (Normal tt, p')
           | (Throw _, p') => handler p'
           end.

Declare Scope js_scope.
Delimit Scope js_scope with js.
Notation "x <- m ;; k" := (bind m (fun x => k))
  (at level 61, m at next level, right associativity) : js_scope.
Notation "m ;; k" := (bind m (fun _ => k))
  (at level 61, right associativity) : js_scope.

(** A listener whose exception escapes: the exception is reported to the
    console and the dispatch goes on with the next listener. *)
Definition reported (m : M unit) : M unit := fun p => (Normal tt, snd (m p)).

(** The state a handler leaves, whatever its completion: an exception that
    escapes a listener is reported to the console and the page goes on. *)
Definition run (m : M unit) (p : Page) : Page := snd (m p).

(** Assignment to a property of an element looked up by id: a [TypeError]
    when the lookup gave [null]. *)
Definition assign (A : Type) (get : Page -> option A)
    (set : option A -> Page -> Page) (f : A -> A) : M unit :=
  fun p => match get p with
           | None => (Throw (TypeError "Cannot set properties of null"), p)
           | Some a => (Normal tt, set (Some (f a)) p)
           end.

(** [fetchCdnJson(apodData)] as a step of a handler: one call to [fetch]. *)
Definition await_fetchCdnJson (net : FetchOutcome) : M (list MediaRecord) :=
  (modify (fun p => set_fetches (S (fetches p)) p) ;; lift (fetchCdnJson net))%js.

(** The three messages the scripts write into the gallery. *)
Definition loadingPlaceholder : Node :=
  El "div" [("className", "placeholder")] []
    [El "div" [("className", "placeholder-icon")] [] [Text "🔄"];
     El "p" [] [] [Text "Loading space photos…"]].

Definition errorPlaceholder : Node :=
  El "div" [("className", "placeholder")] []
    [El "p" [] [] [Text "Error loading images. Check the console for details."]].

Definition noItemsPlaceholder : Node :=
  El "div" [("className", "placeholder")] []
    [El "div" [("className", "placeholder-icon")] [] [Text "🔭"];
     El "p" [] [] [Text "No items found."]].

(** The first listener attached to one of [ns]. *)
Fixpoint first_listener (ns : list Node) : option Listener :=
  match ns with
  | [] => None
  | n :: ns' =>
      match listeners_of n with
      | l :: _ => Some l
      | [] => first_listener ns'
      end
  end.

(** [closeModal] is the same function in both scripts. *)
Definition closeModal : M unit :=
  (m <- gets modal ;;
   match m with
   | None => ret tt
   | Some _ =>
       modify (set_modal (Some (str "true"))) ;;
       mm <- gets modalMedia ;;
       match mm with
       | None => ret tt
       | Some _ => modify (set_modalMedia (Some []))
       end
   end)%js.

(** The [Play inline] listener, with the address and the record it captured. *)
Definition playInline (embedUrl : value) (item : MediaRecord) : M unit :=
  (assign modalMedia set_modalMedia (fun _ => []) ;;
   assign modalMedia set_modalMedia (fun kids => (kids ++
     [El "iframe"
        [("width", "853"); ("height", "480"); ("src", to_string embedUrl);
         ("title", or_default (title item) "Video"); ("frameBorder", "0");
         ("allow", "accelerometer; autoplay; clipboard-write; encrypted-media; gyroscope; picture-in-picture; web-share");
         ("referrerPolicy", "strict-origin-when-cross-origin");
         ("allowFullscreen", "true"); ("loading", "lazy");
         ("className", "video-embed")] [] []])%list))%js.

(** [modalMedia.appendChild(n)]. *)
Definition modalMedia_appendChild (n : Node) : M unit :=
  assign modalMedia set_modalMedia (fun kids => (kids ++ [n])%list).

(** [openModal].  The two scripts differ in one line, the text written into
    [modalDate]: [formatDate(item.date)] in [script.js], [item.date || ''] in
    the variant; [dateText] is that expression. *)
Definition openModalWith (dateText : value -> string)
    (item : MediaRecord) : M unit :=
  (m <- gets modal ;;
   match m with
   | None => ret tt
   | Some _ =>
       assign modalMedia set_modalMedia (fun _ => []) ;;
       assign modalTitle set_modalTitle (fun _ => or_default (title item) "Untitled") ;;
       assign modalDate set_modalDate (fun _ => dateText (date item)) ;;
       assign modalExplanation set_modalExplanation
         (fun _ => or_default (explanation item) "") ;;
       (if strict_eq (media_type item) "image"
           && truthy (or_value (hdurl item) (url item)) then
          modalMedia_appendChild
            (El "img"
               [("src", to_string (or_value (hdurl item) (url item)));
                ("alt", or_default (title item) "Image");
                ("loading", "lazy")] [] [])
        else if strict_eq (media_type item) "video" then
          thumbSrc <- (if truthy (thumbnail_url item)
                       then ret (thumbnail_url item)
                       else unbound "getYouTubeThumbnail") ;;
          (if truthy thumbSrc then
             modalMedia_appendChild
               (El "img"
                  [("src", to_string thumbSrc);
                   ("alt", if truthy (title item)
                           then to_string (title item) ++ " (video thumbnail)"
                           else "Video thumbnail");
                   ("loading", "lazy")] [] [])
           else
             modalMedia_appendChild
               (El "p" [] [] [Text "Video (no thumbnail available)."])) ;;
          embedUrl <- unbound "getYouTubeEmbedUrl" ;;
          let playBtn :=
            if truthy embedUrl then
              [El "button" [("style.marginRight", "10px")]
                  [PlayInline embedUrl item] [Text "Play inline"]]
            else [] in
          let openLink :=
            El "a" [("href", to_string (url item)); ("target", "_blank");
                    ("rel", "noopener noreferrer");
                    ("className", "video-open-link")] []
               [Text "Open video in new tab"] in
          modalMedia_appendChild
            (El "div" [("style.marginTop", "10px")] [] (playBtn ++ [openLink])%list)
        else if truthy (url item) then
          modalMedia_appendChild
            (El "a" [("href", to_string (url item)); ("target", "_blank");
                     ("rel", "noopener noreferrer")] [] [Text "Open media"])
        else ret tt) ;;
       modify (set_modal (Some (str "false"))) ;;
       b <- gets modalCloseBtn ;;
       if b then modify (set_activeElement (Some "modalClose")) else ret tt
   end)%js.

(** The card listeners, shared by both scripts up to the [openModal] they
    call.  [onAnchor] is [e.target.closest('a')] being non-null for the click
    and [document.activeElement.closest('a')] for the key. *)
Definition cardClick (openModal : MediaRecord -> M unit)
    (item : MediaRecord) (onAnchor : bool) : M unit :=
  if onAnchor then ret tt else openModal item.

Definition cardKeydown (openModal : MediaRecord -> M unit)
    (item : MediaRecord) (key : string) (onAnchor : bool) : M unit :=
  if String.eqb key "Enter" || String.eqb key " " then
    if onAnchor then ret tt else openModal item
  else ret tt.

(** The [keydown] listener on [window]. *)
Definition windowKeydown (key : string) : M unit :=
  (m <- gets modal ;;
   if String.eqb key "Escape" then
     match m with
     | Some (str h) => if String.eqb h "false" then closeModal else ret tt
     | _ => ret tt
     end
   else ret tt)%js.

(** ** [js/script.js]: the variant with the date selector *)

Module ScriptJs.
Section WithBrowser.
Context {host : Host}.

Definition formatDate (dateString : value) : string :=
  if truthy dateString
  then toLocaleDateString (to_string dateString ++ "T00:00:00")
  else "".

Definition createGalleryItem (item : MediaRecord) : Node :=
  let media :=
    if strict_eq (media_type item) "image" && truthy (url item) then
      [El "img" [("src", to_string (url item));
                 ("alt", if truthy (title item) then to_string (title item)
                         else "Untitled");
                 ("loading", "lazy")] [] []]
    else if truthy (url item) then
      if truthy (thumbnail_url item) then
        [El "a" [("href", to_string (url item)); ("target", "_blank");
                 ("rel", "noopener noreferrer")] []
            [El "img" [("src", to_string (thumbnail_url item));
                       ("alt", if truthy (title item)
                               then to_string (title item) else "Untitled");
                       ("loading", "lazy")] [] []]]
      else
        [El "a" [("href", to_string (url item)); ("target", "_blank");
                 ("rel", "noopener noreferrer")] []
            [El "span" [] [] [Text "Open"]]]
    else [] in
  let titleEl :=
    El "h3" [("className", "gallery-item-title")] []
       [Text (if truthy (title item) then to_string (title item) else "Untitled")] in
  let dateEl :=
    El "p" [("className", "gallery-item-date")] []
       [Text (formatDate (date item))] in
  El "div"
     [("className", "gallery-item"); ("tabIndex", "0"); ("role", "button");
      ("aria-label",
       or_default (title item) "Item" ++ " — " ++ or_default (date item) ""
         ++ " — Press Enter to open details")]
     [CardClick item; CardKeydown item]
     (media ++ [titleEl; dateEl])%list.

Definition renderGallery (items : list MediaRecord) : M unit :=
  modify (set_gallery
            (match items with
             | [] => [noItemsPlaceholder]
             | _ => map createGalleryItem items
             end)).

(** [items.map(item => item.date).filter(date => date)], then
    [dates.sort((a, b) => b.localeCompare(a))]. *)
Definition dates (items : list MediaRecord) : list string :=
  array_sort (fun a b => localeCompare b a)
    (map to_string (filter truthy (map date items))).

(** Assigning [innerHTML] leaves the single option [All dates], which
    becomes the selected one; the appended options do not change that. *)
Definition populateDateSelector (items : list MediaRecord) : M unit :=
  (modify (set_selOptions [("", "All dates")]) ;;
   modify (set_selValue "") ;;
   modify (fun p => set_selOptions
             (selOptions p ++ map (fun d => (d, formatDate (str d))) (dates items))%list p))%js.

(** [selectedDate ? allItems.filter(item => item.date === selectedDate)
    : allItems], the expression both handlers bind to [itemsToDisplay]. *)
Definition itemsToDisplay (items : list MediaRecord) (selectedDate : string)
    : list MediaRecord :=
  if truthy (str selectedDate)
  then filter (fun item => strict_eq (date item) selectedDate) items
  else items.

Definition openModal : MediaRecord -> M unit := openModalWith formatDate.

Definition loadDataAndPopulateDates (net : FetchOutcome) : M unit :=
  try_catch
    (modify (set_selDisabled true) ;;
     data <- await_fetchCdnJson net ;;
     modify (set_allItems data) ;;
     items <- gets allItems ;;
     populateDateSelector items ;;
     modify (set_selDisabled false))%js
    (modify (set_selDisabled false)).

(** The [click] listener of the fetch button. *)
Definition getImageBtnClick (net : FetchOutcome) : M unit :=
  try_catch_finally
    (modify (set_btnDisabled true) ;;
     modify (set_selDisabled true) ;;
     modify (set_btnText "Loading...") ;;
     modify (set_gallery [loadingPlaceholder]) ;;
     cached <- gets allItems ;;
     (if Nat.eqb (length cached) 0 then
        data <- await_fetchCdnJson net ;;
        modify (set_allItems data) ;;
        items <- gets allItems ;;
        populateDateSelector items
      else ret tt) ;;
     selectedDate <- gets selValue ;;
     items <- gets allItems ;;
     renderGallery (itemsToDisplay items selectedDate))%js
    (modify (set_gallery [errorPlaceholder]))
    (modify (set_btnDisabled false) ;;
     modify (set_selDisabled false) ;;
     modify (set_btnText "Get Space Images"))%js.

(** The [change] listener of the date selector. *)
Definition dateSelectorChange : M unit :=
  (items <- gets allItems ;;
   if Nat.ltb 0 (length items) then
     selectedDate <- gets selValue ;;
     renderGallery (itemsToDisplay items selectedDate)
   else ret tt)%js.

(** What can happen to the page.  [PageLoad] is [init] on a page that has
    the elements it requires; the network outcome carried by an event is
    the answer to the [fetch] its handler may issue. *)
Inductive Event : Type :=
| PageLoad (net : FetchOutcome)
| GetImageClick (net : FetchOutcome)
| DateChange (v : string)
| CardClicked (i : nat) (onAnchor : bool)
| CardKey (i : nat) (key : string) (onAnchor : bool)
| PlayInlineClick
| CloseClick
| OverlayClick
| Keydown (key : string).

Definition cardListener (i : nat) (p : Page) : option MediaRecord :=
  match nth_error (gallery p) i with
  | Some (El _ _ (CardClick item :: _) _) => Some item
  | _ => None
  end.

(** The listeners an event reaches, in order.  A key pressed on a card
    bubbles to [window]; the close button and the overlay have a listener
    only when the element exists. *)
Definition dispatch (e : Event) : M unit :=
  match e with
  | PageLoad net => loadDataAndPopulateDates net
  | GetImageClick net => getImageBtnClick net
  | DateChange v => (modify (set_selValue v) ;; dateSelectorChange)%js
  | CardClicked i onAnchor =>
      (c <- gets (cardListener i) ;;
       match c with
       | Some item => cardClick openModal item onAnchor
       | None => ret tt
       end)%js
  | CardKey i key onAnchor =>
      (c <- gets (cardListener i) ;;
       match c with
       | Some item =>
           reported (cardKeydown openModal item key onAnchor) ;;
           windowKeydown key
       | None => windowKeydown key
       end)%js
  | PlayInlineClick =>
      (mm <- gets modalMedia ;;
       match mm with
       | Some kids =>
           match first_listener (flat_map children_of kids) with
           | Some (PlayInline embedUrl item) => playInline embedUrl item
           | _ => ret tt
           end
       | None => ret tt
       end)%js
  | CloseClick =>
      (b <- gets modalCloseBtn ;; if b then closeModal else ret tt)%js
  | OverlayClick =>
      (b <- gets modalOverlay ;; if b then closeModal else ret tt)%js
  | Keydown key => windowKeydown key
  end.

Definition handle (e : Event) (p : Page) : Page := run (dispatch e) p.

(** The sessions in which every fetch is answered before the next event.
    The other sessions of [script.js], where the page-load fetch and a
    click's fetch are in flight while other events arrive, are those of
    [steps] below. *)
Fixpoint handle_all (es : list Event) (p : Page) : Page :=
  match es with
  | [] => p
  | e :: es' => handle_all es' (handle e p)
  end.

End WithBrowser.
End ScriptJs.

(** ** The variant without a date selector

    It keeps no record set: [allItems], the selector fields and the date
    formatting do not exist there, and the page fields for them are never
    touched. *)

Module Part000.
Section WithBrowser.

Definition createGalleryItem (item : MediaRecord) : Node :=
  let title_ := if truthy (title item) then to_string (title item) else "Untitled" in
  let date_ := if truthy (date item) then to_string (date item) else "" in
  let meta := El "p" [] [] [Text (title_ ++ " — " ++ date_)] in
  let media :=
    if strict_eq (media_type item) "image" && truthy (url item) then
      [El "img" [("src", to_string (url item)); ("alt", title_);
                 ("loading", "lazy")] [] []]
    else if truthy (url item) then
      if truthy (thumbnail_url item) then
        [El "a" [("href", to_string (url item)); ("target", "_blank");
                 ("rel", "noopener noreferrer")] []
            [El "img" [("src", to_string (thumbnail_url item)); ("alt", title_);
                       ("loading", "lazy")] [] []]]
      else
        [El "a" [("href", to_string (url item)); ("target", "_blank");
                 ("rel", "noopener noreferrer")] []
            [El "span" [] [] [Text "Open"]]]
    else [] in
  El "div"
     [("className", "gallery-item"); ("tabIndex", "0"); ("role", "button");
      ("aria-label",
       or_default (title item) "Item" ++ " — "
         ++ or_default (date item) ""
         ++ " — Press Enter to open details")]
     [CardClick item; CardKeydown item]
     (media ++ [meta])%list.

Definition renderGallery (items : list MediaRecord) : M unit :=
  modify (set_gallery
            (match items with
             | [] => [noItemsPlaceholder]
             | _ => map createGalleryItem items
             end)).

Definition openModal : MediaRecord -> M unit :=
  openModalWith (fun d => or_default d "").

(** The [click] listener of the fetch button: it fetches on every run. *)
Definition getImageBtnClick (net : FetchOutcome) : M unit :=
  try_catch_finally
    (modify (set_btnDisabled true) ;;
     modify (set_btnText "Loading...") ;;
     modify (set_gallery [loadingPlaceholder]) ;;
     items <- await_fetchCdnJson net ;;
     renderGallery items)%js
    (modify (set_gallery [errorPlaceholder]))
    (modify (set_btnDisabled false) ;;
     modify (set_btnText "Fetch Space Images"))%js.

Inductive Event : Type :=
| GetImageClick (net : FetchOutcome)
| CardClicked (i : nat) (onAnchor : bool)
| CardKey (i : nat) (key : string) (onAnchor : bool)
| PlayInlineClick
| CloseClick
| OverlayClick
| Keydown (key : string).

Definition cardListener (i : nat) (p : Page) : option MediaRecord :=
  match nth_error (gallery p) i with
  | Some (El _ _ (CardClick item :: _) _) => Some item
  | _ => None
  end.

Definition dispatch (e : Event) : M unit :=
  match e with
  | GetImageClick net => getImageBtnClick net
  | CardClicked i onAnchor =>
      (c <- gets (cardListener i) ;;
       match c with
       | Some item => cardClick openModal item onAnchor
       | None => ret tt
       end)%js
  | CardKey i key onAnchor =>
      (c <- gets (cardListener i) ;;
       match c with
       | Some item =>
           reported (cardKeydown openModal item key onAnchor) ;;
           windowKeydown key
       | None => windowKeydown key
       end)%js
  | PlayInlineClick =>
      (mm <- gets modalMedia ;;
       match mm with
       | Some kids =>
           match first_listener (flat_map children_of kids) with
           | Some (PlayInline embedUrl item) => playInline embedUrl item
           | _ => ret tt
           end
       | None => ret tt
       end)%js
  | CloseClick =>
      (b <- gets modalCloseBtn ;; if b then closeModal else ret tt)%js
  | OverlayClick =>
      (b <- gets modalOverlay ;; if b then closeModal else ret tt)%js
  | Keydown key => windowKeydown key
  end.

Definition handle (e : Event) (p : Page) : Page := run (dispatch e) p.

(** The sessions in which every fetch is answered before the next event. *)
Fixpoint handle_all (es : list Event) (p : Page) : Page :=
  match es with
  | [] => p
  | e :: es' => handle_all es' (handle e p)
  end.

End WithBrowser.
End Part000.

(** ** A browser to run the model on

    The theorems below hold for every [Host].  To evaluate the model on
    concrete pages one is needed: a host that compares strings code unit by
    code unit and formats ISO dates.  On dates written [YYYY-MM-DD] the
    code-unit order is the order every collation gives. *)

Definition codeUnitCompare (a b : string) : Z :=
  match String.compare a b with
  | Lt => (-1)%Z
  | Eq => 0%Z
  | Gt => 1%Z
  end.

Definition monthName (mm : string) : option string :=
  if String.eqb mm "01" then Some "January"
  else if String.eqb mm "02" then Some "February"
  else if String.eqb mm "03" then Some "March"
  else if String.eqb mm "04" then Some "April"
  else if String.eqb mm "05" then Some "May"
  else if String.eqb mm "06" then Some "June"
  else if String.eqb mm "07" then Some "July"
  else if String.eqb mm "08" then Some "August"
  else if String.eqb mm "09" then Some "September"
  else if String.eqb mm "10" then Some "October"
  else if String.eqb mm "11" then Some "November"
  else if String.eqb mm "12" then Some "December"
  else None.

Definition longDate (iso : string) : string :=
  match monthName (substring 5 2 iso) with
  | Some month =>
      let dd := substring 8 2 iso in
      let day := if String.eqb (substring 0 1 dd) "0" then substring 1 1 dd else dd in
      month ++ " " ++ day ++ ", " ++ substring 0 4 iso
  | None => "Invalid Date"
  end.

Definition referenceHost : Host :=
  {| toLocaleDateString := longDate; localeCompare := codeUnitCompare |}.

(** Sample records and pages. *)
Definition dated (d : string) : MediaRecord :=
  mkRecord (str d) undefined undefined undefined undefined undefined undefined.

Definition bare : MediaRecord :=
  mkRecord undefined undefined undefined undefined undefined undefined undefined.

Definition picture : MediaRecord :=
  mkRecord (str "2024-01-01") (str "Test") undefined (str "image")
    (str "http://x/img.png") (str "http://x/img_hd.png") (str "http://x/thumb.png").

Definition clip : MediaRecord :=
  mkRecord (str "2024-02-03") (str "Clip") undefined (str "video")
    (str "https://videos.example.org/watch/7") undefined undefined.

(** A freshly loaded page with every element present and the modal closed. *)
Definition freshPage : Page :=
  mkPage [] 0 false "Get Space Images" false "" [("", "All dates")] []
    (Some (str "true")) true true (Some []) (Some "") (Some "") (Some "") None.

(** ** Equality on values, for stating the filter by Leibniz equality *)

Definition value_eq_dec (a b : value) : {a = b} + {a <> b}.
Proof. decide equality. apply string_dec. Defined.

(** The record's [date] is the string [d]. *)
Definition dated_on (d : string) (item : MediaRecord) : bool :=
  if value_eq_dec (date item) (str d) then true else false.

(** ** Pages on which the modal can be shown *)

(** Every element [openModal] writes to was found at load time. *)
Definition modal_ready (p : Page) : Prop :=
  modal p <> None /\ modalMedia p <> None /\ modalTitle p <> None
  /\ modalDate p <> None /\ modalExplanation p <> None.

(** The image element of the modal, for a given source. *)
Definition modalImg (item : MediaRecord) (src : value) : Node :=
  El "img" [("src", to_string src); ("alt", or_default (title item) "Image");
            ("loading", "lazy")] [] [].

(** The title and date elements every card of [script.js] ends with. *)
Definition cardTitle (text : string) : Node :=
  El "h3" [("className", "gallery-item-title")] [] [Text text].

Definition cardDate (text : string) : Node :=
  El "p" [("className", "gallery-item-date")] [] [Text text].

(** The inline image of a card. *)
Definition cardImg (item : MediaRecord) : Node :=
  El "img" [("src", to_string (url item));
            ("alt", or_default (title item) "Untitled");
            ("loading", "lazy")] [] [].

(** The page after [closeModal] on a page that has a modal: the modal is
    marked hidden and the media container, when there is one, is emptied. *)
Definition closed (p : Page) : Page :=
  match modalMedia p with
  | Some _ => set_modalMedia (Some []) (set_modal (Some (str "true")) p)
  | None => set_modal (Some (str "true")) p
  end.

(** The conditions under which the specification expects a load to fail:
    a response whose status is not 2xx, whose body does not parse, or whose
    parsed body is not an array. *)
Definition bad_response (net : FetchOutcome) : Prop :=
  exists status body,
    net = Response status body
    /\ (ok status = false \/ body = Malformed \/ body = Parsed JNotArray).

(** [init] runs once, when the page loads; every later event is not it. *)
Definition after_load (e : ScriptJs.Event) : bool :=
  match e with
  | ScriptJs.PageLoad _ => false
  | _ => true
  end.

(** A computation that leaves the record set and the count of fetches as
    they are, however it completes. *)
Definition keeps_records (A : Type) (m : M A) : Prop :=
  forall p, allItems (snd (m p)) = allItems p /\ fetches (snd (m p)) = fetches p.

Definition talk : MediaRecord :=
  mkRecord (str "2024-03-09") (str "Talk") (str "A recorded lecture.") (str "video")
    (str "https://www.youtube.com/embed/abc123") undefined undefined.

(** The link of a card that is not an inline image, around what it shows. *)
Definition cardLink (item : MediaRecord) (inside : Node) : Node :=
  El "a" [("href", to_string (url item)); ("target", "_blank");
          ("rel", "noopener noreferrer")] [] [inside].

(** The thumbnail shown inside a card's link. *)
Definition cardThumb (item : MediaRecord) : Node :=
  El "img" [("src", to_string (thumbnail_url item));
            ("alt", or_default (title item) "Untitled");
            ("loading", "lazy")] [] [].

(** The page [openModal] leaves when it completes on a page whose modal is
    ready: the texts, the media, the modal shown, the close button focused
    when there is one. *)
Definition shown (dateText : value -> string) (item : MediaRecord)
    (media : list Node) (p : Page) : Page :=
  set_activeElement (if modalCloseBtn p then Some "modalClose" else activeElement p)
    (set_modal (Some (str "false"))
       (set_modalMedia (Some media)
          (set_modalExplanation (Some (or_default (explanation item) ""))
             (set_modalDate (Some (dateText (date item)))
                (set_modalTitle (Some (or_default (title item) "Untitled")) p))))).

(** Neither the node nor one of its children is an embedded player. *)
Definition no_player (n : Node) : Prop :=
  tag_of n <> "iframe" /\ Forall (fun c => tag_of c <> "iframe") (children_of n).

(** The thumbnail the modal shows for a video record that carries one. *)
Definition videoThumb (item : MediaRecord) (src : value) : Node :=
  El "img"
     [("src", to_string src);
      ("alt", if truthy (title item)
              then to_string (title item) ++ " (video thumbnail)"
              else "Video thumbnail");
      ("loading", "lazy")] [] [].

(** The events that only concern the modal and the cards. *)
Definition modal_event (e : ScriptJs.Event) : bool :=
  match e with
  | ScriptJs.CardClicked _ _ | ScriptJs.CardKey _ _ _
  | ScriptJs.CloseClick | ScriptJs.OverlayClick | ScriptJs.Keydown _ => true
  | _ => false
  end.

(** ** The fact panel of [script.js]

    The panel has a state of its own: the text of [#didYouKnowText] ([None]
    when the element is missing: [init] requires the panel and its button
    but not the text element), whether the class list of [#didYouKnow]
    holds [visible] and [hidden], and the callbacks [setTimeout] has
    scheduled and not yet run.  The fact shown is the string [randomFact]
    returned. *)
Record FactPanel : Type := mkFact {
  factText : option string;
  hasVisible : bool;
  hasHidden : bool;
  timers : nat
}.

(** The [click] listener of the fact button. *)
Definition getFactBtnClick (fact : string) (s : FactPanel) : Completion unit * FactPanel :=
  match factText s with
  | None => (Throw (TypeError "Cannot set properties of null"), s)
  | Some _ =>
      if hasVisible s
      then (Normal tt, mkFact (Some fact) false true (S (timers s)))
      else (Normal tt, mkFact (Some fact) true false (timers s))
  end.

(** The callback given to [setTimeout]. *)
Definition showAfterReset (s : FactPanel) : FactPanel :=
  mkFact (factText s) true false (timers s).

Inductive FactEvent : Type :=
| FactClick (fact : string)
| TimerFires.

(** A timer can fire only when one is scheduled. *)
Definition factStep (e : FactEvent) (s : FactPanel) : FactPanel :=
  match e with
  | FactClick fact => snd (getFactBtnClick fact s)
  | TimerFires =>
      match timers s with
      | 0 => s
      | S k => showAfterReset (mkFact (factText s) (hasVisible s) (hasHidden s) k)
      end
  end.

Fixpoint factRun (es : list FactEvent) (s : FactPanel) : FactPanel :=
  match es with
  | [] => s
  | e :: es' => factRun es' (factStep e s)
  end.

Definition is_click (e : FactEvent) : bool :=
  match e with
  | FactClick _ => true
  | TimerFires => false
  end.

(** The panel is shown, or it is hidden with a timer on its way to show it. *)
Definition settling (s : FactPanel) : Prop :=
  (hasVisible s = true /\ hasHidden s = false)
  \/ (hasVisible s = false /\ hasHidden s = true /\ 0 < timers s).

(** ** What the page shows against what it stores *)

(** A computation that leaves the record set, the selector and the gallery
    as they are, however it completes. *)
Definition keeps_view (A : Type) (m : M A) : Prop :=
  forall p,
    allItems (snd (m p)) = allItems p
    /\ selOptions (snd (m p)) = selOptions p
    /\ selValue (snd (m p)) = selValue p
    /\ gallery (snd (m p)) = gallery p.

(** The selector offers [All dates] and the dates of the stored records. *)
Definition selector_in_sync {host : Host} (p : Page) : Prop :=
  selOptions p
  = ("", "All dates")
    :: map (fun d => (d, ScriptJs.formatDate (str d))) (ScriptJs.dates (allItems p)).


(** The page [openModal] leaves when it throws after the texts were
    written: the texts and what the media container held by then; the modal
    is not shown and the focus does not move. *)
Definition aborted (dateText : value -> string) (item : MediaRecord)
    (media : list Node) (p : Page) : Page :=
  set_modalMedia (Some media)
    (set_modalExplanation (Some (or_default (explanation item) ""))
       (set_modalDate (Some (dateText (date item)))
          (set_modalTitle (Some (or_default (title item) "Untitled")) p))).

(** ** The handlers of [script.js] across their [await]

    [loadDataAndPopulateDates] and the fetch button's listener suspend at
    [await fetchCdnJson(apodData)]: other listeners run, and the other
    fetch may be answered, before they go on.  [init] does not wait for the
    load it starts and leaves the button enabled, so the two fetches can be
    in flight together.  Each handler is cut at its [await] into what runs
    before and what runs when the answer is there.  [ScriptJs.handle] is the
    schedule in which the answer comes before anything else happens. *)

Section AcrossAwait.
Context {host : Host}.

(** [loadDataAndPopulateDates] up to the [await]: the selector is disabled
    and the fetch is issued. *)
Definition loadStart : M unit :=
  (modify (set_selDisabled true) ;;
   modify (fun p => set_fetches (S (fetches p)) p))%js.

(** [loadDataAndPopulateDates] from the answer on. *)
Definition loadAnswer (net : FetchOutcome) : M unit :=
  try_catch
    (data <- lift (fetchCdnJson net) ;;
     modify (set_allItems data) ;;
     items <- gets allItems ;;
     ScriptJs.populateDateSelector items ;;
     modify (set_selDisabled false))%js
    (modify (set_selDisabled false)).

(** The [finally] block of the button's listener. *)
Definition finallyReady : M unit :=
  (modify (set_btnDisabled false) ;;
   modify (set_selDisabled false) ;;
   modify (set_btnText "Get Space Images"))%js.

(** The button's listener up to the [await], returning whether it issued a
    fetch.  With records stored there is no [await]: the listener renders
    and runs to its end. *)
Definition clickStart : M bool :=
  (modify (set_btnDisabled true) ;;
   modify (set_selDisabled true) ;;
   modify (set_btnText "Loading...") ;;
   modify (set_gallery [loadingPlaceholder]) ;;
   cached <- gets allItems ;;
   if Nat.eqb (length cached) 0 then
     modify (fun p => set_fetches (S (fetches p)) p) ;;
     ret true
   else
     selectedDate <- gets selValue ;;
     items <- gets allItems ;;
     ScriptJs.renderGallery (ScriptJs.itemsToDisplay items selectedDate) ;;
     finallyReady ;;
     ret false)%js.

(** The button's listener from the answer on. *)
Definition clickAnswer (net : FetchOutcome) : M unit :=
  try_catch_finally
    (data <- lift (fetchCdnJson net) ;;
     modify (set_allItems data) ;;
     items <- gets allItems ;;
     ScriptJs.populateDateSelector items ;;
     selectedDate <- gets selValue ;;
     items <- gets allItems ;;
     ScriptJs.renderGallery (ScriptJs.itemsToDisplay items selectedDate))%js
    (modify (set_gallery [errorPlaceholder]))
    finallyReady.

(** A session: the page, and which of the two fetches is in flight. *)
Record Session : Type := mkSession {
  page : Page;
  loadPending : bool;
  clickPending : bool
}.

(** What happens in a session, one step at a time.  [Sync] carries the
    events whose listeners do not suspend. *)
Inductive Action : Type :=
| LoadStart
| LoadAnswer (net : FetchOutcome)
| ClickStart
| ClickAnswer (net : FetchOutcome)
| Sync (e : ScriptJs.Event).

Definition synchronous (e : ScriptJs.Event) : bool :=
  match e with
  | ScriptJs.PageLoad _ | ScriptJs.GetImageClick _ => false
  | _ => true
  end.

(** An answer arrives only for a fetch in flight; [init] runs once; a
    disabled button fires no click, and the button is disabled while its
    own fetch is in flight. *)
Definition step (a : Action) (s : Session) : Session :=
  match a with
  | LoadStart =>
      if loadPending s then s
      else mkSession (run loadStart (page s)) true (clickPending s)
  | LoadAnswer net =>
      if loadPending s
      then mkSession (run (loadAnswer net) (page s)) false (clickPending s)
      else s
  | ClickStart =>
      if btnDisabled (page s) || clickPending s then s
      else match clickStart (page s) with
           | (Normal issued, p') => mkSession p' (loadPending s) issued
           | (Throw _, p') => mkSession p' (loadPending s) false
           end
  | ClickAnswer net =>
      if clickPending s
      then mkSession (run (clickAnswer net) (page s)) (loadPending s) false
      else s
  | Sync e =>
      if synchronous e
      then mkSession (ScriptJs.handle e (page s)) (loadPending s) (clickPending s)
      else s
  end.

Fixpoint steps (acts : list Action) (s : Session) : Session :=
  match acts with
  | [] => s
  | a :: acts' => steps acts' (step a s)
  end.

End AcrossAwait.

(** Everything but the start of the page load, which happens once, first. *)
Definition loaded_once (a : Action) : bool :=
  match a with
  | LoadStart => false
  | _ => true
  end.

(** No fetch is in flight. *)
Definition quiet (s : Session) : Prop :=
  loadPending s = false /\ clickPending s = false.

(** * Properties *)

(** ** Values *)

Lemma truthy_str (s : string) : truthy (str s) = negb (String.eqb s "").
Proof. reflexivity. Qed.

Lemma strict_eq_dated_on (d : string) (item : MediaRecord) :
  strict_eq (date item) d = dated_on d item.
Proof.
  unfold dated_on, strict_eq.
  destruct (value_eq_dec (date item) (str d)) as [E | N].
  - rewrite E. apply String.eqb_refl.
  - destruct (date item) as [| t]; [reflexivity |].
    destruct (String.eqb_spec t d) as [-> | _]; [now elim N | reflexivity].
Qed.

(** ** The date filter *)

Lemma filter_none (A : Type) (f : A -> bool) (l : list A) :
  (forall x, In x l -> f x = false) -> filter f l = [].
Proof.
  induction l as [| a l IH]; intros H; [reflexivity |].
  simpl. rewrite (H a (or_introl eq_refl)). apply IH.
  intros x Hx. apply H. now right.
Qed.

(** C1. The items a handler displays are all the stored items when the
    selector's value is the empty string (the [All dates] option, the only
    way the selector expresses an absent filter); for a non-empty value they
    are, in stored order, exactly the items whose [date] is that string, and
    so the empty sequence when no item has that date. *)
Theorem itemsToDisplay_spec (items : list MediaRecord) (selectedDate : string) :
  ScriptJs.itemsToDisplay items "" = items
  /\ (selectedDate <> "" ->
      ScriptJs.itemsToDisplay items selectedDate = filter (dated_on selectedDate) items)
  /\ (selectedDate <> "" ->
      (forall item, In item items -> date item <> str selectedDate) ->
      ScriptJs.itemsToDisplay items selectedDate = []).
Proof.
  assert (Hf : selectedDate <> "" ->
               ScriptJs.itemsToDisplay items selectedDate
               = filter (dated_on selectedDate) items).
  { intros Hne. unfold ScriptJs.itemsToDisplay. rewrite truthy_str.
    destruct (String.eqb_spec selectedDate "") as [E | _]; [contradiction |].
    simpl. apply filter_ext. intros item. apply strict_eq_dated_on. }
  split; [reflexivity | split; [exact Hf |]].
  intros Hne Hnone. rewrite (Hf Hne).
  apply filter_none. intros item Hin. unfold dated_on.
  destruct (value_eq_dec (date item) (str selectedDate)) as [E | _];
    [now elim (Hnone item Hin) | reflexivity].
Qed.

Lemma itemsToDisplay_spec_witness :
  let items := [dated "2021-01-01"; dated "2021-03-05"; dated "2021-01-01"; bare] in
  ScriptJs.itemsToDisplay items "" = items
  /\ ScriptJs.itemsToDisplay items "2021-01-01" = [dated "2021-01-01"; dated "2021-01-01"]
  /\ ScriptJs.itemsToDisplay items "2021-01" = [].
Proof.
  intros items.
  destruct (itemsToDisplay_spec items "2021-01-01") as (H1 & H2 & _).
  destruct (itemsToDisplay_spec items "2021-01") as (_ & _ & H3).
  split; [exact H1 | split].
  - rewrite H2 by discriminate. reflexivity.
  - apply H3; [discriminate |].
    intros item [<- | [<- | [<- | [<- | []]]]]; discriminate.
Defined.

(** ** The options of the date selector *)

Section Sorting.
Variables (A : Type) (cmp : A -> A -> Z).

Lemma sort_insert_perm (x : A) (l : list A) :
  Permutation (sort_insert cmp x l) (x :: l).
Proof.
  induction l as [| y l IH]; simpl; [apply Permutation_refl |].
  destruct (cmp x y <=? 0)%Z; [apply Permutation_refl |].
  eapply perm_trans; [apply perm_skip, IH | apply perm_swap].
Qed.

(** Sorting reorders and nothing else: no element is dropped or merged. *)
Lemma array_sort_perm (l : list A) : Permutation (array_sort cmp l) l.
Proof.
  induction l as [| x l IH]; simpl; [apply perm_nil |].
  eapply perm_trans; [apply sort_insert_perm | apply perm_skip, IH].
Qed.

(** For a comparator that never calls both of two elements the larger one,
    the result is in comparator order. *)
Hypothesis cmp_total : forall a b, (0 < cmp a b)%Z -> (cmp b a <= 0)%Z.

Let before (a b : A) : Prop := (cmp a b <= 0)%Z.

Lemma sort_insert_sorted (x : A) (l : list A) :
  Sorted before l -> Sorted before (sort_insert cmp x l).
Proof.
  induction 1 as [| y l Hs IH Hhd]; simpl.
  - repeat constructor.
  - destruct (Z.leb_spec (cmp x y) 0) as [Hle | Hgt].
    + constructor; [constructor; assumption | constructor; exact Hle].
    + constructor; [exact IH |].
      destruct l as [| z l]; simpl.
      * constructor. apply cmp_total, Hgt.
      * destruct (Z.leb_spec (cmp x z) 0).
        -- constructor. apply cmp_total, Hgt.
        -- constructor. now inversion Hhd.
Qed.

Lemma array_sort_sorted (l : list A) : Sorted before (array_sort cmp l).
Proof.
  induction l as [| x l IH]; simpl; [constructor | now apply sort_insert_sorted].
Qed.
End Sorting.

(** The dates offered are the truthy dates of the records, reordered: a
    date carried by two records is offered twice. *)
Lemma dates_perm {host : Host} (items : list MediaRecord) :
  Permutation (ScriptJs.dates items)
              (map to_string (filter truthy (map date items))).
Proof. apply array_sort_perm. Qed.

(** The half of the selector's contract that the code keeps: the dates
    offered are in descending [localeCompare] order. *)
Lemma dates_descending {host : Host} (items : list MediaRecord) :
  (forall a b, (0 < localeCompare b a)%Z -> (localeCompare a b <= 0)%Z) ->
  Sorted (fun a b => (localeCompare b a <= 0)%Z) (ScriptJs.dates items).
Proof.
  intros Htot. unfold ScriptJs.dates.
  apply (array_sort_sorted (fun a b => localeCompare b a)).
  intros a b. apply Htot.
Qed.

(** C2. On records dated 2021-01-01, 2021-03-05, 2021-01-01 the options
    built by [populateDateSelector] repeat 2021-01-01, whatever the host's
    collation: the code maps, filters and sorts, and never removes a
    duplicate.  With code-unit comparison the dates offered are 2021-03-05,
    2021-01-01, 2021-01-01, not the two distinct dates. *)
Theorem dates_repeat_duplicates :
  let items := [dated "2021-01-01"; dated "2021-03-05"; dated "2021-01-01"] in
  (forall host : Host, ~ NoDup (@ScriptJs.dates host items))
  /\ @ScriptJs.dates referenceHost items = ["2021-03-05"; "2021-01-01"; "2021-01-01"]
  /\ @ScriptJs.dates referenceHost items <> ["2021-03-05"; "2021-01-01"]
  /\ selOptions (run (@ScriptJs.populateDateSelector referenceHost items) freshPage)
     = [("", "All dates"); ("2021-03-05", "March 5, 2021");
        ("2021-01-01", "January 1, 2021"); ("2021-01-01", "January 1, 2021")].
Proof.
  intros items. split; [| split; [reflexivity | split; [discriminate | reflexivity]]].
  intros host Hnd.
  apply (Permutation_NoDup (dates_perm items)) in Hnd.
  simpl in Hnd. inversion Hnd as [| x l Hnotin _]; subst.
  apply Hnotin. right. left. reflexivity.
Qed.

(** ** The modal *)

Lemma truthy_or_value (a b : value) : truthy (or_value a b) = truthy a || truthy b.
Proof. unfold or_value. destruct (truthy a) eqn:E; [exact E | reflexivity]. Qed.

Lemma or_value_l (a b : value) : truthy a = true -> or_value a b = a.
Proof. unfold or_value. now intros ->. Qed.

Lemma or_value_r (a b : value) : truthy a = false -> or_value a b = b.
Proof. unfold or_value. now intros ->. Qed.

Lemma or_default_truthy (v : value) (d : string) :
  or_default v d = if truthy v then to_string v else d.
Proof. destruct v as [| s]; [reflexivity |]. simpl. now destruct (String.eqb s ""). Qed.

Lemma or_default_missing (v : value) (d : string) :
  truthy v = false -> or_default v d = d.
Proof. intros H. now rewrite or_default_truthy, H. Qed.

Arguments truthy : simpl never.
Arguments or_value : simpl never.
Arguments or_default : simpl never.
Arguments to_string : simpl never.

(** Name the state of the elements of a page on which the modal is ready. *)
Ltac ready p H :=
  destruct p as [items n bd bt sd sv so g m mo mc mm mt md me ae];
  destruct H as (Hm & Hmm & Hmt & Hmd & Hme); simpl in Hm, Hmm, Hmt, Hmd, Hme;
  destruct m as [a |]; [| now elim Hm];
  destruct mm as [kids |]; [| now elim Hmm];
  destruct mt as [t |]; [| now elim Hmt];
  destruct md as [d |]; [| now elim Hmd];
  destruct me as [e |]; [| now elim Hme];
  clear Hm Hmm Hmt Hmd Hme.

(** Run a handler symbolically, leaving the tests on values as they are. *)
Ltac js_step :=
  lazy -[truthy or_value or_default to_string strict_eq orb andb String.append
         ScriptJs.formatDate
         date title explanation media_type url hdurl thumbnail_url].

Ltac unfold_js :=
  unfold ScriptJs.openModal, Part000.openModal, openModalWith, modalMedia_appendChild,
    unbound, bind, gets, assign, modify, ret.

(** Without a modal element [openModal] returns at once. *)
Lemma openModalWith_no_modal (dateText : value -> string)
    (item : MediaRecord) (p : Page) :
  modal p = None -> openModalWith dateText item p = (Normal tt, p).
Proof. intros H. unfold openModalWith, bind, gets, ret. now rewrite H. Qed.

(** C8. On a page whose modal is ready, [openModal] of an image record
    completes and leaves in [modalMedia] one image whose source is [hdurl]
    when [hdurl] is present, [url] when only [url] is present, and no
    element when neither is. *)
Theorem modal_image_source {host : Host}
    (item : MediaRecord) (p : Page) :
  modal_ready p ->
  media_type item = str "image" ->
  exists p', ScriptJs.openModal item p = (Normal tt, p')
    /\ modalMedia p' =
       Some (if truthy (hdurl item) then [modalImg item (hdurl item)]
             else if truthy (url item) then [modalImg item (url item)]
             else []).
Proof.
  intros Hready Himg. ready p Hready.
  unfold_js. rewrite Himg, truthy_or_value.
  destruct (truthy (hdurl item)) eqn:Hhd.
  - rewrite (or_value_l _ _ Hhd). js_step. destruct mc; eexists; split; reflexivity.
  - rewrite (or_value_r _ _ Hhd). destruct (truthy (url item)) eqn:Hu; js_step.
    + destruct mc; eexists; split; reflexivity.
    + destruct mc; eexists; split; reflexivity.
Qed.

Lemma freshPage_ready : modal_ready freshPage.
Proof. repeat split; discriminate. Qed.

Lemma modal_image_source_witness :
  exists p', @ScriptJs.openModal referenceHost picture freshPage = (Normal tt, p')
    /\ modalMedia p' = Some [modalImg picture (str "http://x/img_hd.png")].
Proof.
  exact (@modal_image_source referenceHost picture freshPage
           freshPage_ready eq_refl).
Defined.

(** ** Video records *)

Lemma strict_eq_true (v : value) (s : string) : strict_eq v s = true -> v = str s.
Proof.
  destruct v as [| t]; [discriminate |]. cbn. intros H.
  apply String.eqb_eq in H. now subst.
Qed.

(** On a page whose modal is ready, [openModal] of a video record writes
    the texts, empties the media container, appends the record's own
    thumbnail when it has one, and then throws at the first helper it
    reaches: [getYouTubeThumbnail] when the record has no thumbnail,
    [getYouTubeEmbedUrl] otherwise.  The controls are never built and the
    modal is never shown. *)
Lemma openModalWith_video (dateText : value -> string) (item : MediaRecord) (p : Page) :
  modal_ready p ->
  media_type item = str "video" ->
  openModalWith dateText item p
  = (Throw (ReferenceError (if truthy (thumbnail_url item)
                            then "getYouTubeEmbedUrl" else "getYouTubeThumbnail")),
     aborted dateText item
       (if truthy (thumbnail_url item)
        then [videoThumb item (thumbnail_url item)] else []) p).
Proof.
  intros Hready Hvid. ready p Hready.
  unfold aborted, videoThumb. unfold_js. rewrite Hvid.
  change (strict_eq (str "video") "image") with false.
  change (strict_eq (str "video") "video") with true.
  cbn [andb].
  destruct (truthy (thumbnail_url item)) eqn:Hth; js_step; rewrite ?Hth; reflexivity.
Qed.

Lemma aborted_keeps (dateText : value -> string) (item : MediaRecord)
    (media : list Node) (p : Page) :
  modal (aborted dateText item media p) = modal p
  /\ activeElement (aborted dateText item media p) = activeElement p
  /\ modalMedia (aborted dateText item media p) = Some media
  /\ modalTitle (aborted dateText item media p) = Some (or_default (title item) "Untitled")
  /\ gallery (aborted dateText item media p) = gallery p.
Proof. destruct p. repeat split. Qed.

(** A click on a rendered card, away from any link, opens the modal on the
    card's record. *)
Lemma card_click_opens {host : Host}
    (item : MediaRecord) (p : Page) :
  ScriptJs.dispatch (ScriptJs.CardClicked 0 false)
    (set_gallery [ScriptJs.createGalleryItem item] p)
  = ScriptJs.openModal item (set_gallery [ScriptJs.createGalleryItem item] p).
Proof. destruct p. reflexivity. Qed.

Lemma set_gallery_ready (g : list Node) (p : Page) :
  modal_ready p -> modal_ready (set_gallery g p).
Proof. destruct p. intros H. exact H. Qed.

(** C3.  What the code does where C3 expects the render to complete.  For
    every record whose [media_type] is [video], on a page whose modal is
    ready, [openModal] throws a [ReferenceError] for one of the two helpers
    that no script defines, called directly or by a click on the record's
    card: the title is written, but the modal is not shown and the focus
    does not move.  The missing field is not what fails: every video record
    aborts the modal. *)
Theorem video_record_aborts_modal {host : Host} (item : MediaRecord) (p : Page) :
  modal_ready p ->
  media_type item = str "video" ->
  exists name p',
    ScriptJs.openModal item p = (Throw (ReferenceError name), p')
    /\ (name = "getYouTubeThumbnail" \/ name = "getYouTubeEmbedUrl")
    /\ modal p' = modal p
    /\ activeElement p' = activeElement p
    /\ modalTitle p' = Some (or_default (title item) "Untitled")
    /\ ScriptJs.dispatch (ScriptJs.CardClicked 0 false)
         (set_gallery [ScriptJs.createGalleryItem item] p)
       = (Throw (ReferenceError name), set_gallery [ScriptJs.createGalleryItem item] p').
Proof.
  intros Hready Hvid.
  pose proof (aborted_keeps ScriptJs.formatDate item
                (if truthy (thumbnail_url item)
                 then [videoThumb item (thumbnail_url item)] else []) p)
    as (Hm & Ha & _ & Ht & _).
  do 2 eexists. split; [exact (openModalWith_video ScriptJs.formatDate item Hready Hvid) |].
  split; [destruct (truthy (thumbnail_url item)); [right | left]; reflexivity |].
  split; [exact Hm | split; [exact Ha | split; [exact Ht |]]].
  rewrite card_click_opens. unfold ScriptJs.openModal.
  rewrite (openModalWith_video ScriptJs.formatDate item
             (set_gallery_ready [ScriptJs.createGalleryItem item] Hready) Hvid).
  destruct p. reflexivity.
Qed.

Lemma video_record_aborts_modal_witness :
  exists name p',
    @ScriptJs.openModal referenceHost clip freshPage = (Throw (ReferenceError name), p')
    /\ modal p' = Some (str "true").
Proof.
  destruct (@video_record_aborts_modal referenceHost clip freshPage freshPage_ready eq_refl)
    as (name & p' & Hopen & _ & Hm & _).
  exists name, p'. split; [exact Hopen | exact Hm].
Defined.

(** C4.  What the code does where C4 expects the message and the link.  For
    a video record without a thumbnail of its own, on a page whose modal is
    ready, [openModal] throws a [ReferenceError] at [getYouTubeThumbnail],
    before the message is appended: the media container is left empty (no
    message, no [Play inline], no link to the record's address) and the
    modal is not shown. *)
Theorem video_without_thumbnail_throws {host : Host} (item : MediaRecord) (p : Page) :
  modal_ready p ->
  media_type item = str "video" ->
  truthy (thumbnail_url item) = false ->
  fst (ScriptJs.openModal item p) = Throw (ReferenceError "getYouTubeThumbnail")
  /\ modalMedia (run (ScriptJs.openModal item) p) = Some []
  /\ modal (run (ScriptJs.openModal item) p) = modal p.
Proof.
  intros Hready Hvid Hth.
  unfold run, ScriptJs.openModal.
  rewrite (openModalWith_video ScriptJs.formatDate item Hready Hvid), Hth.
  destruct p. repeat split.
Qed.

Lemma video_without_thumbnail_throws_witness :
  fst (@ScriptJs.openModal referenceHost clip freshPage)
  = Throw (ReferenceError "getYouTubeThumbnail")
  /\ modalMedia (run (@ScriptJs.openModal referenceHost clip) freshPage) = Some []
  /\ modal (run (@ScriptJs.openModal referenceHost clip) freshPage) = Some (str "true").
Proof.
  exact (@video_without_thumbnail_throws referenceHost clip freshPage
           freshPage_ready eq_refl eq_refl).
Defined.

(** ** Records with missing fields *)

(** The card of any record: at most one media element, then the title and
    the date, each with its default. *)
Lemma createGalleryItem_shape {host : Host} (item : MediaRecord) :
  exists props media,
    ScriptJs.createGalleryItem item
    = El "div" props [CardClick item; CardKeydown item]
        (media ++ [cardTitle (or_default (title item) "Untitled");
                   cardDate (ScriptJs.formatDate (date item))])
    /\ length media <= 1
    /\ (truthy (url item) = false -> media = []).
Proof.
  unfold ScriptJs.createGalleryItem, cardTitle, cardDate.
  rewrite (or_default_truthy (title item) "Untitled").
  destruct (truthy (url item)) eqn:Hu.
  - rewrite andb_true_r.
    destruct (strict_eq (media_type item) "image");
      [| destruct (truthy (thumbnail_url item))];
      do 2 eexists; (split; [reflexivity | split; [simpl; lia | discriminate]]).
  - rewrite andb_false_r.
    do 2 eexists. split; [reflexivity | split; [simpl; lia | reflexivity]].
Qed.

(** ** Card classification *)

(** C7. In both scripts the card of a record whose [media_type] is [image]
    and whose [url] is present begins with an inline image whose source is
    that [url], whether or not a [thumbnail_url] is present as well; the
    image is followed by the title and date only, and no child of the card
    is a link. *)
Theorem card_image_inline {host : Host} (item : MediaRecord) :
  media_type item = str "image" ->
  truthy (url item) = true ->
  children_of (ScriptJs.createGalleryItem item)
  = [cardImg item; cardTitle (or_default (title item) "Untitled");
     cardDate (ScriptJs.formatDate (date item))]
  /\ children_of (Part000.createGalleryItem item)
     = [cardImg item;
        El "p" [] [] [Text (or_default (title item) "Untitled" ++ " — "
                              ++ or_default (date item) "")]]
  /\ Forall (fun n => tag_of n <> "a") (children_of (ScriptJs.createGalleryItem item))
  /\ Forall (fun n => tag_of n <> "a") (children_of (Part000.createGalleryItem item)).
Proof.
  intros Hkind Hurl.
  assert (Hs : children_of (ScriptJs.createGalleryItem item)
               = [cardImg item; cardTitle (or_default (title item) "Untitled");
                  cardDate (ScriptJs.formatDate (date item))]).
  { unfold ScriptJs.createGalleryItem, cardImg, cardTitle, cardDate.
    rewrite Hkind, Hurl, (or_default_truthy (title item) "Untitled"). reflexivity. }
  assert (Hp : children_of (Part000.createGalleryItem item)
               = [cardImg item;
                  El "p" [] [] [Text (or_default (title item) "Untitled" ++ " — "
                                        ++ or_default (date item) "")]]).
  { unfold Part000.createGalleryItem, cardImg.
    rewrite Hkind, Hurl, (or_default_truthy (title item) "Untitled"),
      (or_default_truthy (date item) ""). reflexivity. }
  rewrite Hs, Hp.
  repeat split; repeat constructor; discriminate.
Qed.

Lemma card_image_inline_witness :
  children_of (@ScriptJs.createGalleryItem referenceHost picture)
  = [cardImg picture; cardTitle "Test"; cardDate "January 1, 2024"]
  /\ prop_of "src" (cardImg picture) = Some "http://x/img.png".
Proof.
  split; [| reflexivity].
  exact (proj1 (@card_image_inline referenceHost picture eq_refl eq_refl)).
Defined.

(** ** The date selector on an empty record set *)

(** C10. In [script.js], a change of the date selector while [allItems] is
    empty completes without fetching and without rendering: the page is the
    one before the event except for the selector's value, which the browser
    set before calling the listener. *)
Theorem date_change_without_items {host : Host}
    (v : string) (p : Page) :
  allItems p = [] ->
  ScriptJs.dispatch (ScriptJs.DateChange v) p = (Normal tt, set_selValue v p)
  /\ ScriptJs.handle (ScriptJs.DateChange v) p = set_selValue v p
  /\ fetches (ScriptJs.handle (ScriptJs.DateChange v) p) = fetches p
  /\ gallery (ScriptJs.handle (ScriptJs.DateChange v) p) = gallery p
  /\ allItems (ScriptJs.handle (ScriptJs.DateChange v) p) = [].
Proof.
  intros Hempty. destruct p. simpl in Hempty. subst.
  repeat split; reflexivity.
Qed.

Lemma date_change_without_items_witness :
  @ScriptJs.handle referenceHost (ScriptJs.DateChange "2021-01-01") freshPage
  = set_selValue "2021-01-01" freshPage.
Proof.
  exact (proj1 (proj2 (@date_change_without_items referenceHost
                         "2021-01-01" freshPage eq_refl))).
Defined.

(** ** Closing the modal *)

Lemma closeModal_closed (p : Page) :
  modal p <> None -> closeModal p = (Normal tt, closed p).
Proof.
  intros Hm. destruct p as [items n bd bt sd sv so g m mo mc mm mt md me ae].
  simpl in Hm. destruct m as [a |]; [| now elim Hm].
  destruct mm; reflexivity.
Qed.

(** C9. In [script.js], while the modal is open, a click on the close
    button, a click on the overlay and the Escape key (pressed anywhere,
    also on a card) lead to the same page: the one before the event with
    the modal marked hidden and the media container emptied, so that an
    embedded player is removed; no other field of the page changes. *)
Theorem close_routes_agree {host : Host}
    (p : Page) (i : nat) (onAnchor : bool) :
  modal p = Some (str "false") ->
  modalCloseBtn p = true ->
  modalOverlay p = true ->
  ScriptJs.handle ScriptJs.CloseClick p = closed p
  /\ ScriptJs.handle ScriptJs.OverlayClick p = closed p
  /\ ScriptJs.handle (ScriptJs.Keydown "Escape") p = closed p
  /\ ScriptJs.handle (ScriptJs.CardKey i "Escape" onAnchor) p = closed p
  /\ modal (closed p) = Some (str "true")
  /\ (modalMedia p <> None -> modalMedia (closed p) = Some [])
  /\ (modalMedia p = None -> modalMedia (closed p) = None)
  /\ allItems (closed p) = allItems p
  /\ fetches (closed p) = fetches p
  /\ gallery (closed p) = gallery p
  /\ selValue (closed p) = selValue p
  /\ selOptions (closed p) = selOptions p
  /\ modalTitle (closed p) = modalTitle p
  /\ modalDate (closed p) = modalDate p
  /\ modalExplanation (closed p) = modalExplanation p
  /\ activeElement (closed p) = activeElement p.
Proof.
  intros Hopen Hbtn Hov.
  assert (Hm : modal p <> None) by (rewrite Hopen; discriminate).
  assert (Hesc : windowKeydown "Escape" p = (Normal tt, closed p)).
  { unfold windowKeydown, bind, gets. rewrite Hopen. simpl.
    now apply closeModal_closed. }
  split; [| split; [| split; [| split]]].
  - unfold ScriptJs.handle, run, ScriptJs.dispatch, bind, gets.
    rewrite Hbtn, (@closeModal_closed p Hm). reflexivity.
  - unfold ScriptJs.handle, run, ScriptJs.dispatch, bind, gets.
    rewrite Hov, (@closeModal_closed p Hm). reflexivity.
  - unfold ScriptJs.handle, run, ScriptJs.dispatch. now rewrite Hesc.
  - unfold ScriptJs.handle, run, ScriptJs.dispatch, bind, gets, reported, cardKeydown.
    destruct (ScriptJs.cardListener i p); simpl; now rewrite Hesc.
  - clear Hesc Hm. destruct p as [items n bd bt sd sv so g m mo mc mm mt md me ae].
    destruct mm; simpl;
      repeat split; try reflexivity; intros; congruence.
Qed.

Lemma close_routes_agree_witness :
  let p := set_modalMedia (Some [El "iframe" [("src", "https://www.youtube.com/embed/x")] [] []])
             (set_modal (Some (str "false")) freshPage) in
  @ScriptJs.handle referenceHost ScriptJs.CloseClick p = freshPage
  /\ @ScriptJs.handle referenceHost ScriptJs.OverlayClick p = freshPage
  /\ @ScriptJs.handle referenceHost (ScriptJs.Keydown "Escape") p = freshPage.
Proof.
  intros p.
  destruct (@close_routes_agree referenceHost p 0 false
              eq_refl eq_refl eq_refl) as (H1 & H2 & H3 & _).
  rewrite H1, H2, H3. repeat split; reflexivity.
Defined.

(** ** Loading the feed *)

Lemma fetchCdnJson_fails_iff (net : FetchOutcome) :
  (exists e, fetchCdnJson net = Throw e) <-> net = Rejected \/ bad_response net.
Proof.
  unfold bad_response. split.
  - intros [e He]. destruct net as [| status body]; [now left | right].
    exists status, body. split; [reflexivity |].
    simpl in He. destruct (ok status); [| now left].
    destruct body as [| [data |]]; simpl in He;
      [now right; left | discriminate | now right; right].
  - intros [-> | (status & body & -> & Hbad)]; simpl; [eauto |].
    destruct (ok status); simpl; [| eauto].
    destruct Hbad as [Hok | [-> | ->]]; [discriminate | eauto | eauto].
Qed.

(** C6, as the code has it.  [fetchCdnJson] throws exactly when the request
    itself is rejected (there is no response), or the response has a status
    outside 200-299, a body that does not parse, or a parsed body that is
    not an array.  When the fetch button's handler meets such a failure on
    an empty record set, the record set stays empty, the selector is not
    repopulated, the gallery holds the error placeholder, and the button
    and the selector are enabled again with the button's ready label. *)
Theorem load_failure {host : Host}
    (net : FetchOutcome) (p : Page) :
  ((exists e, fetchCdnJson net = Throw e) <-> net = Rejected \/ bad_response net)
  /\ (allItems p = [] ->
      (exists e, fetchCdnJson net = Throw e) ->
      allItems (ScriptJs.handle (ScriptJs.GetImageClick net) p) = []
      /\ selOptions (ScriptJs.handle (ScriptJs.GetImageClick net) p) = selOptions p
      /\ selValue (ScriptJs.handle (ScriptJs.GetImageClick net) p) = selValue p
      /\ gallery (ScriptJs.handle (ScriptJs.GetImageClick net) p) = [errorPlaceholder]
      /\ btnDisabled (ScriptJs.handle (ScriptJs.GetImageClick net) p) = false
      /\ btnText (ScriptJs.handle (ScriptJs.GetImageClick net) p) = "Get Space Images"
      /\ selDisabled (ScriptJs.handle (ScriptJs.GetImageClick net) p) = false
      /\ fetches (ScriptJs.handle (ScriptJs.GetImageClick net) p) = S (fetches p)).
Proof.
  split; [apply fetchCdnJson_fails_iff |].
  intros Hempty [e He]. destruct p. simpl in Hempty. subst.
  unfold ScriptJs.handle, run, ScriptJs.dispatch, ScriptJs.getImageBtnClick,
    try_catch_finally, await_fetchCdnJson, lift, bind, modify, gets, ret.
  simpl. rewrite He. repeat split; reflexivity.
Qed.

Lemma load_failure_witness :
  let net := Response 404 (Parsed (JArray [picture])) in
  let p' := @ScriptJs.handle referenceHost (ScriptJs.GetImageClick net) freshPage in
  allItems p' = [] /\ gallery p' = [errorPlaceholder]
  /\ btnDisabled p' = false /\ btnText p' = "Get Space Images".
Proof.
  intros net p'.
  destruct (@load_failure referenceHost net freshPage) as [Hiff Hfail].
  destruct (Hfail eq_refl) as (Ha & _ & _ & Hg & Hd & Ht & _).
  - apply Hiff. right. exists 404, (Parsed (JArray [picture])).
    split; [reflexivity | left; reflexivity].
  - repeat split; assumption.
Defined.

(** C6 as stated fails: a rejected request makes the load fail although
    there is no response, hence no status, no body and no parsed value. *)
Lemma load_failure_counterexample :
  (exists e, fetchCdnJson Rejected = Throw e)
  /\ ~ bad_response Rejected
  /\ ~ ((exists e, fetchCdnJson Rejected = Throw e) <-> bad_response Rejected).
Proof.
  assert (Hthrows : exists e, fetchCdnJson Rejected = Throw e) by (simpl; eauto).
  assert (Hnot : ~ bad_response Rejected).
  { intros (status & body & Heq & _). discriminate Heq. }
  split; [exact Hthrows | split; [exact Hnot |]].
  intros [Hto _]. exact (Hnot (Hto Hthrows)).
Qed.

(** ** Fetching once *)

Section KeepsRecords.
Variables A B : Type.

Lemma keeps_ret (a : A) : keeps_records (ret a).
Proof. intros p. split; reflexivity. Qed.

Lemma keeps_gets (f : Page -> A) : keeps_records (gets f).
Proof. intros p. split; reflexivity. Qed.

Lemma keeps_bind (m : M A) (k : A -> M B) :
  keeps_records m -> (forall a, keeps_records (k a)) -> keeps_records (bind m k).
Proof.
  intros Hm Hk p. unfold bind. specialize (Hm p).
  destruct (m p) as [[a | e] p1]; simpl in *; [| exact Hm].
  destruct (Hk a p1) as [H1 H2]. destruct Hm as [H3 H4].
  split; congruence.
Qed.

Lemma keeps_assign (get : Page -> option A) (set : option A -> Page -> Page)
    (f : A -> A) :
  (forall x p, allItems (set x p) = allItems p /\ fetches (set x p) = fetches p) ->
  keeps_records (assign get set f).
Proof.
  intros Hset p. unfold assign. destruct (get p); simpl; [apply Hset | split; reflexivity].
Qed.
End KeepsRecords.

Lemma keeps_modify (f : Page -> Page) :
  (forall p, allItems (f p) = allItems p /\ fetches (f p) = fetches p) ->
  keeps_records (modify f).
Proof. intros Hf p. apply Hf. Qed.

Lemma keeps_reported (m : M unit) : keeps_records m -> keeps_records (reported m).
Proof. intros Hm p. apply Hm. Qed.

(** Decompose a handler along its binds and branches. *)
Ltac keeps :=
  repeat match goal with
         | |- keeps_records (bind _ _) => apply keeps_bind; [| intros ?]
         | |- keeps_records (ret _) => apply keeps_ret
         | |- keeps_records (gets _) => apply keeps_gets
         | |- keeps_records (reported _) => apply keeps_reported
         | |- keeps_records (unbound _) => intros ?; split; reflexivity
         | |- keeps_records (modify _) =>
             apply keeps_modify; intros [];  split; reflexivity
         | |- keeps_records (assign _ _ _) =>
             apply keeps_assign; intros ? []; split; reflexivity
         | |- keeps_records (if ?c then _ else _) => destruct c
         | |- keeps_records (match ?c with _ => _ end) => destruct c
         end.

Lemma keeps_closeModal : keeps_records closeModal.
Proof. unfold closeModal. keeps. Qed.

Lemma keeps_windowKeydown (key : string) : keeps_records (windowKeydown key).
Proof. unfold windowKeydown. keeps; apply keeps_closeModal. Qed.

Lemma keeps_playInline (embedUrl : value) (item : MediaRecord) :
  keeps_records (playInline embedUrl item).
Proof. unfold playInline. keeps. Qed.

Lemma keeps_openModalWith (dateText : value -> string)
    (item : MediaRecord) :
  keeps_records (openModalWith dateText item).
Proof. unfold openModalWith, modalMedia_appendChild. keeps. Qed.

(** In [script.js], with a record set that is not empty, the fetch button
    renders from the stored records. *)
Lemma getImageBtnClick_cached {host : Host} (net : FetchOutcome) (p : Page) :
  allItems p <> [] ->
  ScriptJs.getImageBtnClick net p
  = (Normal tt,
     set_btnText "Get Space Images"
       (set_selDisabled false
          (set_btnDisabled false
             (snd (ScriptJs.renderGallery (ScriptJs.itemsToDisplay (allItems p) (selValue p))
                     (set_gallery [loadingPlaceholder]
                        (set_btnText "Loading..."
                           (set_selDisabled true (set_btnDisabled true p))))))))).
Proof.
  intros Hne. destruct p as [items n bd bt sd sv so g m mo mc mm mt md me ae].
  simpl in Hne. destruct items as [| x xs]; [now elim Hne | reflexivity].
Qed.

(** Every event after the page load keeps a non-empty record set and
    issues no fetch. *)
Lemma handle_keeps_records {host : Host}
    (e : ScriptJs.Event) (p : Page) :
  allItems p <> [] ->
  after_load e = true ->
  allItems (ScriptJs.handle e p) = allItems p
  /\ fetches (ScriptJs.handle e p) = fetches p.
Proof.
  intros Hne Hafter. unfold ScriptJs.handle, run.
  destruct e as [net | net | v | i b | i key b | | | | key]; try discriminate.
  - simpl. rewrite (getImageBtnClick_cached net p Hne).
    clear Hne. destruct p. split; reflexivity.
  - assert (K : keeps_records (ScriptJs.dispatch (ScriptJs.DateChange v))).
    { unfold ScriptJs.dispatch, ScriptJs.dateSelectorChange, ScriptJs.renderGallery. keeps. }
    apply K.
  - assert (K : keeps_records (ScriptJs.dispatch (ScriptJs.CardClicked i b))).
    { unfold ScriptJs.dispatch, cardClick. keeps. apply keeps_openModalWith. }
    apply K.
  - assert (K : keeps_records (ScriptJs.dispatch (ScriptJs.CardKey i key b))).
    { unfold ScriptJs.dispatch, cardKeydown.
      keeps; try apply keeps_windowKeydown; apply keeps_openModalWith. }
    apply K.
  - assert (K : keeps_records (ScriptJs.dispatch ScriptJs.PlayInlineClick)).
    { unfold ScriptJs.dispatch. keeps. apply keeps_playInline. }
    apply K.
  - assert (K : keeps_records (ScriptJs.dispatch ScriptJs.CloseClick)).
    { unfold ScriptJs.dispatch. keeps; apply keeps_closeModal. }
    apply K.
  - assert (K : keeps_records (ScriptJs.dispatch ScriptJs.OverlayClick)).
    { unfold ScriptJs.dispatch. keeps; apply keeps_closeModal. }
    apply K.
  - apply keeps_windowKeydown.
Qed.

Ltac unfold_click :=
  unfold ScriptJs.handle, run, ScriptJs.dispatch, ScriptJs.getImageBtnClick,
    try_catch_finally, await_fetchCdnJson, lift, bind, modify, gets, ret.

(** The two suspended handlers are their halves: [ScriptJs.handle] is the
    schedule in which the answer comes at once. *)
Lemma handle_is_a_schedule {host : Host} (net : FetchOutcome) (p : Page) :
  ScriptJs.handle (ScriptJs.PageLoad net) p = run (loadAnswer net) (run loadStart p)
  /\ ScriptJs.handle (ScriptJs.GetImageClick net) p
     = match clickStart p with
       | (Normal true, p') => run (clickAnswer net) p'
       | (_, p') => p'
       end.
Proof.
  destruct p as [items n bd bt sd sv so g m mo mc mm mt md me ae]. split.
  - unfold ScriptJs.handle, run, ScriptJs.dispatch, ScriptJs.loadDataAndPopulateDates,
      loadAnswer, loadStart, try_catch, await_fetchCdnJson, lift, bind, modify, gets.
    cbn [set_selDisabled set_fetches fetches snd].
    destruct (fetchCdnJson net); reflexivity.
  - unfold_click. unfold clickStart, clickAnswer, finallyReady, try_catch_finally,
      lift, bind, modify, gets, ret.
    cbn [snd fst allItems set_btnDisabled set_selDisabled set_btnText set_gallery].
    destruct items as [| x xs]; cbn [length Nat.eqb].
    + cbn [set_fetches fetches]. destruct (fetchCdnJson net); reflexivity.
    + reflexivity.
Qed.

(** The click, up to its [await]: it leaves the record set alone, and it
    issues a fetch exactly when the record set is empty. *)
Lemma clickStart_cases {host : Host} (p : Page) :
  allItems (snd (clickStart p)) = allItems p
  /\ (allItems p = [] ->
      fst (clickStart p) = Normal true
      /\ fetches (snd (clickStart p)) = S (fetches p)
      /\ btnDisabled (snd (clickStart p)) = true
      /\ gallery (snd (clickStart p)) = [loadingPlaceholder])
  /\ (allItems p <> [] ->
      fst (clickStart p) = Normal false
      /\ fetches (snd (clickStart p)) = fetches p).
Proof.
  destruct p as [items n bd bt sd sv so g m mo mc mm mt md me ae].
  unfold clickStart, finallyReady, ScriptJs.renderGallery, bind, modify, gets, ret.
  cbn [snd fst allItems set_btnDisabled set_selDisabled set_btnText set_gallery].
  destruct items as [| x xs]; cbn; repeat split; try discriminate;
    try match goal with Habs : ?x <> ?x |- _ => now elim Habs end.
Qed.

(** The click, from the answer on. *)
Lemma clickAnswer_cases {host : Host} (net : FetchOutcome) (p : Page) :
  allItems (run (clickAnswer net) p)
  = match fetchCdnJson net with
    | Normal data => data
    | Throw _ => allItems p
    end
  /\ fetches (run (clickAnswer net) p) = fetches p
  /\ btnDisabled (run (clickAnswer net) p) = false.
Proof.
  destruct p as [items n bd bt sd sv so g m mo mc mm mt md me ae].
  unfold run, clickAnswer, finallyReady, try_catch_finally, lift, bind, modify, gets,
    ScriptJs.populateDateSelector, ScriptJs.renderGallery.
  destruct (fetchCdnJson net); cbn; repeat split.
Qed.

(** The page load, from the answer on. *)
Lemma loadAnswer_cases {host : Host} (net : FetchOutcome) (p : Page) :
  allItems (run (loadAnswer net) p)
  = match fetchCdnJson net with
    | Normal data => data
    | Throw _ => allItems p
    end
  /\ fetches (run (loadAnswer net) p) = fetches p.
Proof.
  destruct p as [items n bd bt sd sv so g m mo mc mm mt md me ae].
  unfold run, loadAnswer, try_catch, lift, bind, modify, gets,
    ScriptJs.populateDateSelector.
  destruct (fetchCdnJson net); cbn; repeat split.
Qed.

Lemma synchronous_after_load (e : ScriptJs.Event) :
  synchronous e = true -> after_load e = true.
Proof. destruct e; intros H; try discriminate; reflexivity. Qed.

(** With records stored and no fetch in flight, a step issues no fetch,
    changes no record and leaves no fetch in flight. *)
Lemma step_keeps_records {host : Host} (a : Action) (s : Session) :
  allItems (page s) <> [] -> quiet s -> loaded_once a = true ->
  allItems (page (step a s)) = allItems (page s)
  /\ fetches (page (step a s)) = fetches (page s)
  /\ quiet (step a s).
Proof.
  intros Hne [Hl Hc] Ha. destruct s as [p lp cp]. cbn in Hne, Hl, Hc. subst lp cp.
  destruct a as [| net | | net | e]; try discriminate; cbn [step loadPending clickPending page].
  - repeat split.
  - rewrite orb_false_r. destruct (btnDisabled p); [repeat split |].
    destruct (clickStart_cases p) as (Hitems & _ & Hstored).
    destruct (Hstored Hne) as [Hfst Hf].
    destruct (clickStart p) as [c p']. cbn [fst snd] in *. subst c.
    cbn. repeat split; assumption.
  - repeat split.
  - destruct (synchronous e) eqn:He; [| repeat split].
    destruct (handle_keeps_records e p Hne (synchronous_after_load e He)) as [H1 H2].
    cbn. repeat split; assumption.
Qed.

Lemma steps_keep_records {host : Host} (acts : list Action) (s : Session) :
  allItems (page s) <> [] -> quiet s -> forallb loaded_once acts = true ->
  allItems (page (steps acts s)) = allItems (page s)
  /\ fetches (page (steps acts s)) = fetches (page s)
  /\ quiet (steps acts s).
Proof.
  revert s. induction acts as [| a acts IH]; intros s Hne Hq Hall;
    [split; [reflexivity | split; [reflexivity | exact Hq]] |].
  cbn in Hall. apply andb_prop in Hall. destruct Hall as [Ha Hacts].
  destruct (@step_keeps_records _ a s Hne Hq Ha) as (H1 & H2 & H3).
  cbn [steps]. destruct (IH (step a s)) as (H4 & H5 & H6);
    [now rewrite H1 | exact H3 | exact Hacts |].
  repeat split; [congruence | congruence | apply H6 | apply H6].
Qed.

(** The variant without a date selector fetches on every click. *)
Lemma part000_click_fetches (net : FetchOutcome) (p : Page) :
  fetches (Part000.handle (Part000.GetImageClick net) p) = S (fetches p).
Proof.
  destruct p.
  unfold Part000.handle, run, Part000.dispatch, Part000.getImageBtnClick,
    try_catch_finally, await_fetchCdnJson, lift, bind, modify, Part000.renderGallery.
  simpl. destruct (fetchCdnJson net); reflexivity.
Qed.

(** C5, as the code has it, over every interleaving of the handlers with
    the answers of their fetches.  In [script.js] a click on the enabled
    fetch button issues a fetch exactly when the record set is empty at
    that moment, and never changes the record set before the answer.  So
    once the record set holds at least one record and no fetch is in
    flight, nothing that happens after the page load issues a fetch or
    changes the record set.  An answer stores what a successful load
    returns and leaves the record set as it was when the load failed, so
    after a failed load on an empty record set the next click fetches
    again.  The variant without a date selector keeps no record set and
    fetches on every click. *)
Theorem fetch_cached_when_stored {host : Host} :
  (forall acts s,
      allItems (page s) <> [] -> quiet s -> forallb loaded_once acts = true ->
      allItems (page (steps acts s)) = allItems (page s)
      /\ fetches (page (steps acts s)) = fetches (page s)
      /\ quiet (steps acts s))
  /\ (forall s,
        btnDisabled (page s) = false -> clickPending s = false ->
        allItems (page (step ClickStart s)) = allItems (page s)
        /\ (allItems (page s) = [] ->
            clickPending (step ClickStart s) = true
            /\ fetches (page (step ClickStart s)) = S (fetches (page s)))
        /\ (allItems (page s) <> [] ->
            clickPending (step ClickStart s) = false
            /\ fetches (page (step ClickStart s)) = fetches (page s)))
  /\ (forall net s,
        clickPending s = true ->
        allItems (page (step (ClickAnswer net) s))
        = match fetchCdnJson net with
          | Normal data => data
          | Throw _ => allItems (page s)
          end
        /\ fetches (page (step (ClickAnswer net) s)) = fetches (page s)
        /\ clickPending (step (ClickAnswer net) s) = false
        /\ btnDisabled (page (step (ClickAnswer net) s)) = false)
  /\ (forall net s,
        loadPending s = true ->
        allItems (page (step (LoadAnswer net) s))
        = match fetchCdnJson net with
          | Normal data => data
          | Throw _ => allItems (page s)
          end
        /\ fetches (page (step (LoadAnswer net) s)) = fetches (page s))
  /\ (forall net s,
        allItems (page s) = [] -> btnDisabled (page s) = false -> clickPending s = false ->
        (exists e, fetchCdnJson net = Throw e) ->
        fetches (page (steps [ClickStart; ClickAnswer net; ClickStart] s))
        = S (S (fetches (page s))))
  /\ (forall net p,
        fetches (Part000.handle (Part000.GetImageClick net) p) = S (fetches p)).
Proof.
  assert (Hclick : forall s,
             btnDisabled (page s) = false -> clickPending s = false ->
             allItems (page (step ClickStart s)) = allItems (page s)
             /\ (allItems (page s) = [] ->
                 clickPending (step ClickStart s) = true
                 /\ fetches (page (step ClickStart s)) = S (fetches (page s)))
             /\ (allItems (page s) <> [] ->
                 clickPending (step ClickStart s) = false
                 /\ fetches (page (step ClickStart s)) = fetches (page s))).
  { intros [p lp cp] Hb Hc. cbn in Hb, Hc. subst cp.
    cbn [step page clickPending loadPending]. rewrite Hb. cbn [orb].
    destruct (clickStart_cases p) as (Hitems & Hempty & Hstored).
    destruct (clickStart p) as [c p']. cbn [fst snd] in *.
    split; [| split].
    - destruct c; exact Hitems.
    - intros He. destruct (Hempty He) as (-> & Hf & _). split; [reflexivity | exact Hf].
    - intros Hne. destruct (Hstored Hne) as (-> & Hf). split; [reflexivity | exact Hf]. }
  assert (Hanswer : forall net s,
             clickPending s = true ->
             allItems (page (step (ClickAnswer net) s))
             = match fetchCdnJson net with
               | Normal data => data
               | Throw _ => allItems (page s)
               end
             /\ fetches (page (step (ClickAnswer net) s)) = fetches (page s)
             /\ clickPending (step (ClickAnswer net) s) = false
             /\ btnDisabled (page (step (ClickAnswer net) s)) = false).
  { intros net [p lp cp] Hc. cbn in Hc. subst cp. cbn [step page clickPending].
    destruct (clickAnswer_cases net p) as (H1 & H2 & H3). repeat split; assumption. }
  split; [exact steps_keep_records |].
  split; [exact Hclick |].
  split; [exact Hanswer |].
  split.
  { intros net [p lp cp] Hl. cbn in Hl. subst lp. cbn [step page loadPending].
    apply loadAnswer_cases. }
  split; [| exact part000_click_fetches].
  intros net s Hempty Hb Hc [e He]. cbn [steps].
  destruct (Hclick s Hb Hc) as (Hitems & Hissue & _).
  destruct (Hissue Hempty) as [Hpending Hf].
  destruct (Hanswer net (step ClickStart s) Hpending) as (Ha & Hf2 & Hc2 & Hb2).
  rewrite He in Ha.
  destruct (Hclick (step (ClickAnswer net) (step ClickStart s)) Hb2 Hc2) as (_ & Hagain & _).
  destruct Hagain as [_ Hf3]; [now rewrite Ha, Hitems |].
  now rewrite Hf3, Hf2, Hf.
Qed.

Lemma fetch_cached_when_stored_witness :
  let feed := Response 200 (Parsed (JArray [picture; clip])) in
  let loaded := @steps referenceHost [LoadStart; LoadAnswer feed]
                  (mkSession freshPage false false) in
  let later := [ClickStart; ClickAnswer Rejected; Sync (ScriptJs.DateChange "2024-01-01");
                Sync (ScriptJs.CardClicked 0 false); LoadAnswer Rejected;
                Sync (ScriptJs.Keydown "Escape"); ClickStart] in
  allItems (page loaded) = [picture; clip]
  /\ allItems (page (@steps referenceHost later loaded)) = [picture; clip]
  /\ fetches (page (@steps referenceHost later loaded)) = 1.
Proof.
  intros feed loaded later.
  destruct (@fetch_cached_when_stored referenceHost) as (Hcached & _).
  destruct (Hcached later loaded) as (Ha & Hf & _);
    [discriminate | split; reflexivity | reflexivity |].
  rewrite Ha, Hf. repeat split; reflexivity.
Defined.

(** Two fetches in flight at once.  The page load and a click both find
    the record set empty and both fetch; the page-load answer stores a
    record, the click's answer then replaces it, here by nothing, and the
    next click fetches a third time. *)
Example overlapping_fetches :
  let first := Response 200 (Parsed (JArray [picture])) in
  let second := Response 200 (Parsed (JArray [])) in
  let s := @steps referenceHost [LoadStart; ClickStart; LoadAnswer first]
             (mkSession freshPage false false) in
  allItems (page s) = [picture]
  /\ clickPending s = true
  /\ fetches (page s) = 2
  /\ allItems (page (@steps referenceHost [ClickAnswer second] s)) = []
  /\ fetches (page (@steps referenceHost [ClickAnswer second; ClickStart] s)) = 3.
Proof. vm_compute. repeat split. Qed.

(** C5 as stated fails.  In the variant without a date selector a second
    click fetches again after a first load that succeeded; in [script.js]
    the same happens when the load that succeeded returned an empty array. *)
Lemma fetch_once_counterexample :
  let feed := Response 200 (Parsed (JArray [picture])) in
  let empty := Response 200 (Parsed (JArray [])) in
  fetchCdnJson feed = Normal [picture]
  /\ fetches (Part000.handle_all
                [Part000.GetImageClick feed; Part000.GetImageClick feed] freshPage) = 2
  /\ fetchCdnJson empty = Normal []
  /\ fetches (@ScriptJs.handle_all referenceHost
                [ScriptJs.PageLoad empty; ScriptJs.GetImageClick empty;
                 ScriptJs.GetImageClick empty] freshPage) = 3.
Proof. repeat split; reflexivity. Qed.

(** ** The model at work *)

(** An empty feed: the gallery says that no items were found and the
    selector offers [All dates] only. *)
Example empty_feed :
  let p := @ScriptJs.handle referenceHost
             (ScriptJs.GetImageClick (Response 200 (Parsed (JArray [])))) freshPage in
  gallery p = [noItemsPlaceholder] /\ selOptions p = [("", "All dates")].
Proof. vm_compute. split; reflexivity. Qed.

(** A feed of one image: one card with an inline image, the title and the
    long date; a click on it opens the modal with the same title and date,
    an empty explanation and the high-resolution image. *)
Example one_picture :
  let p := @ScriptJs.handle_all referenceHost
             [ScriptJs.GetImageClick (Response 200 (Parsed (JArray [picture])));
              ScriptJs.CardClicked 0 false] freshPage in
  map children_of (gallery p)
  = [[cardImg picture; cardTitle "Test"; cardDate "January 1, 2024"]]
  /\ modalTitle p = Some "Test" /\ modalDate p = Some "January 1, 2024"
  /\ modalExplanation p = Some ""
  /\ modalMedia p = Some [modalImg picture (str "http://x/img_hd.png")]
  /\ modal p = Some (str "false") /\ activeElement p = Some "modalClose".
Proof. vm_compute. repeat split. Qed.

(** A click on the link inside a card leaves the modal closed. *)
Example link_click_does_not_open :
  let shown := @ScriptJs.handle referenceHost
                 (ScriptJs.GetImageClick (Response 200 (Parsed (JArray [clip])))) freshPage in
  @ScriptJs.handle referenceHost (ScriptJs.CardClicked 0 true) shown = shown.
Proof. vm_compute. reflexivity. Qed.

(** A video that brings its own thumbnail: the thumbnail is appended, then
    [openModal] throws at [getYouTubeEmbedUrl]; the modal stays hidden and
    an Escape afterwards finds nothing to close. *)
Example video_with_thumbnail :
  let item := mkRecord (str "2024-03-09") (str "Talk") undefined (str "video")
                (str "https://www.youtube.com/embed/abc123") undefined
                (str "http://x/thumb.png") in
  let r := @ScriptJs.openModal referenceHost item freshPage in
  fst r = Throw (ReferenceError "getYouTubeEmbedUrl")
  /\ modalMedia (snd r) = Some [videoThumb item (str "http://x/thumb.png")]
  /\ modalTitle (snd r) = Some "Talk"
  /\ modal (snd r) = Some (str "true")
  /\ @ScriptJs.handle referenceHost (ScriptJs.Keydown "Escape") (snd r) = snd r.
Proof. vm_compute. repeat split. Qed.

(** On a page where [#modal] exists but [#modalMedia] does not, [openModal]
    throws before it writes anything. *)
Example modal_without_media_container :
  let p := set_modalMedia None freshPage in
  @ScriptJs.openModal referenceHost picture p
  = (Throw (TypeError "Cannot set properties of null"), p).
Proof. vm_compute. reflexivity. Qed.

(** * Further properties of the scripts *)

(** ** Cards and the gallery *)

Lemma createGalleryItem_listener {host : Host} (item : MediaRecord) :
  listeners_of (ScriptJs.createGalleryItem item) = [CardClick item; CardKeydown item].
Proof. reflexivity. Qed.

Lemma cardListener_rendered {host : Host} (items : list MediaRecord) (i : nat) (p : Page) :
  items <> [] ->
  ScriptJs.cardListener i (run (ScriptJs.renderGallery items) p) = nth_error items i.
Proof.
  intros Hne. destruct p. destruct items as [| x xs]; [now elim Hne |].
  unfold ScriptJs.cardListener, run, ScriptJs.renderGallery, modify.
  cbn [snd set_gallery gallery]. rewrite nth_error_map.
  destruct (nth_error (x :: xs) i); reflexivity.
Qed.

(** After [renderGallery] the gallery holds one card per item, in order,
    and a click on the [i]-th card, away from any link, calls [openModal] on
    the [i]-th item. *)
Theorem rendered_card_opens_its_record {host : Host}
    (items : list MediaRecord) (i : nat) (item : MediaRecord) (p : Page) :
  nth_error items i = Some item ->
  length (gallery (run (ScriptJs.renderGallery items) p)) = length items
  /\ nth_error (gallery (run (ScriptJs.renderGallery items) p)) i
     = Some (ScriptJs.createGalleryItem item)
  /\ ScriptJs.dispatch (ScriptJs.CardClicked i false) (run (ScriptJs.renderGallery items) p)
     = ScriptJs.openModal item (run (ScriptJs.renderGallery items) p).
Proof.
  intros Hi.
  assert (Hne : items <> []) by (intros ->; destruct i; discriminate).
  split; [| split].
  - destruct p. destruct items; [now elim Hne |].
    unfold run, ScriptJs.renderGallery, modify. cbn [snd set_gallery gallery].
    apply length_map.
  - destruct p. destruct items; [now elim Hne |].
    unfold run, ScriptJs.renderGallery, modify. cbn [snd set_gallery gallery].
    rewrite nth_error_map, Hi. reflexivity.
  - unfold ScriptJs.dispatch, bind, gets, cardClick.
    rewrite (cardListener_rendered i p Hne), Hi. reflexivity.
Qed.

Lemma rendered_card_opens_its_record_witness :
  let shown := run (@ScriptJs.renderGallery referenceHost [picture; clip]) freshPage in
  @ScriptJs.dispatch referenceHost (ScriptJs.CardClicked 1 false) shown
  = @ScriptJs.openModal referenceHost clip shown.
Proof.
  intros shown.
  exact (proj2 (proj2 (@rendered_card_opens_its_record referenceHost
                         [picture; clip] 1 clip freshPage eq_refl))).
Defined.

(** While the gallery shows one of the three placeholders, no card event
    reaches a card listener: a click changes nothing, and a key only reaches
    the listener on [window]. *)
Theorem placeholder_is_inert {host : Host}
    (p : Page) (ph : Node) (i : nat) (onAnchor : bool) (key : string) :
  gallery p = [ph] ->
  In ph [loadingPlaceholder; errorPlaceholder; noItemsPlaceholder] ->
  ScriptJs.handle (ScriptJs.CardClicked i onAnchor) p = p
  /\ ScriptJs.handle (ScriptJs.CardKey i key onAnchor) p
     = ScriptJs.handle (ScriptJs.Keydown key) p.
Proof.
  intros Hg Hph.
  assert (Hnone : ScriptJs.cardListener i p = None).
  { unfold ScriptJs.cardListener. rewrite Hg.
    destruct Hph as [<- | [<- | [<- | []]]]; destruct i as [| [| i]]; reflexivity. }
  unfold ScriptJs.handle, run, ScriptJs.dispatch, bind, gets, ret.
  rewrite Hnone. split; reflexivity.
Qed.

Lemma placeholder_is_inert_witness :
  let shown := @ScriptJs.handle referenceHost
                 (ScriptJs.GetImageClick (Response 500 Malformed)) freshPage in
  @ScriptJs.handle referenceHost (ScriptJs.CardClicked 0 false) shown = shown.
Proof.
  intros shown.
  apply (@placeholder_is_inert referenceHost shown errorPlaceholder
           0 false "Enter");
    [reflexivity | right; left; reflexivity].
Defined.

(** The cards of [script.js] besides the inline image.  A record with a
    [url] that is not an image with that [url] gets a link to the [url],
    around its thumbnail when it has one and around the word [Open]
    otherwise; a record without [url] gets no media element, even when it
    has a thumbnail.  So a card holds a link exactly when the record has a
    [url] and is not an image. *)
Theorem card_link_rules {host : Host} (item : MediaRecord) :
  let rest := [cardTitle (or_default (title item) "Untitled");
               cardDate (ScriptJs.formatDate (date item))] in
  (strict_eq (media_type item) "image" = false -> truthy (url item) = true ->
   truthy (thumbnail_url item) = true ->
   children_of (ScriptJs.createGalleryItem item)
   = cardLink item (cardThumb item) :: rest)
  /\ (strict_eq (media_type item) "image" = false -> truthy (url item) = true ->
      truthy (thumbnail_url item) = false ->
      children_of (ScriptJs.createGalleryItem item)
      = cardLink item (El "span" [] [] [Text "Open"]) :: rest)
  /\ (truthy (url item) = false ->
      children_of (ScriptJs.createGalleryItem item) = rest)
  /\ ((exists n, In n (children_of (ScriptJs.createGalleryItem item)) /\ tag_of n = "a")
      <-> truthy (url item) = true /\ strict_eq (media_type item) "image" = false).
Proof.
  intros rest. subst rest.
  unfold ScriptJs.createGalleryItem, cardLink, cardThumb, cardTitle, cardDate.
  rewrite !(or_default_truthy (title item) "Untitled").
  split; [| split; [| split]].
  - intros -> -> ->. reflexivity.
  - intros -> -> ->. reflexivity.
  - intros ->. rewrite andb_false_r. reflexivity.
  - split.
    + intros (n & Hin & Htag).
      destruct (strict_eq (media_type item) "image");
        destruct (truthy (url item)); destruct (truthy (thumbnail_url item));
        cbn [andb children_of app In] in Hin;
        try (split; reflexivity);
        repeat (destruct Hin as [<- | Hin]; [discriminate Htag |]);
        contradiction.
    + intros [-> ->].
      destruct (truthy (thumbnail_url item));
        eexists; (split; [left; reflexivity | reflexivity]).
Qed.

Lemma card_link_rules_witness :
  children_of (@ScriptJs.createGalleryItem referenceHost clip)
  = [cardLink clip (El "span" [] [] [Text "Open"]);
     cardTitle "Clip"; cardDate "February 3, 2024"].
Proof.
  exact (proj1 (proj2 (@card_link_rules referenceHost clip)) eq_refl eq_refl eq_refl).
Defined.

(** ** The date selector and the filter *)

Lemma truthy_inv (v : value) :
  truthy v = true -> exists s, v = str s /\ s <> "" /\ to_string v = s.
Proof.
  destruct v as [| s]; [discriminate |].
  unfold truthy. destruct (String.eqb_spec s "") as [-> | Hne]; [discriminate |].
  intros _. exists s. repeat split. exact Hne.
Qed.

(** The dates offered are the dates of the records that have one. *)
Lemma in_dates_iff {host : Host} (items : list MediaRecord) (d : string) :
  In d (ScriptJs.dates items)
  <-> exists item, In item items /\ date item = str d /\ d <> "".
Proof.
  split.
  - intros Hin. apply (Permutation_in _ (dates_perm items)) in Hin.
    apply in_map_iff in Hin. destruct Hin as (v & Hv & Hin).
    apply filter_In in Hin. destruct Hin as [Hin Ht].
    apply in_map_iff in Hin. destruct Hin as (item & Hdate & Hitem).
    destruct (truthy_inv v Ht) as (s & -> & Hne & Hs).
    rewrite Hs in Hv. subst s. exists item. repeat split; assumption.
  - intros (item & Hitem & Hdate & Hne).
    apply (Permutation_in _ (Permutation_sym (dates_perm items))).
    apply in_map_iff. exists (str d). split; [reflexivity |].
    apply filter_In. split.
    + apply in_map_iff. exists item. split; assumption.
    + unfold truthy. destruct (String.eqb_spec d ""); [contradiction | reflexivity].
Qed.

Lemma populateDateSelector_run {host : Host} (items : list MediaRecord) (p : Page) :
  run (ScriptJs.populateDateSelector items) p
  = set_selOptions
      (("", "All dates")
       :: map (fun d => (d, ScriptJs.formatDate (str d))) (ScriptJs.dates items))
      (set_selValue "" p).
Proof. destruct p. reflexivity. Qed.

(** [populateDateSelector] selects [All dates], offers it first, and after
    it one option per record that has a date (no more, no fewer: the values
    are those dates, reordered), each labelled with its formatted date; it
    touches neither the record set nor the gallery. *)
Theorem selector_options {host : Host} (items : list MediaRecord) (p : Page) :
  selValue (run (ScriptJs.populateDateSelector items) p) = ""
  /\ hd_error (selOptions (run (ScriptJs.populateDateSelector items) p))
     = Some ("", "All dates")
  /\ Permutation
       (map fst (tl (selOptions (run (ScriptJs.populateDateSelector items) p))))
       (map to_string (filter truthy (map date items)))
  /\ length (selOptions (run (ScriptJs.populateDateSelector items) p))
     = S (length (filter (fun item => truthy (date item)) items))
  /\ Forall (fun o => snd o = ScriptJs.formatDate (str (fst o)))
       (tl (selOptions (run (ScriptJs.populateDateSelector items) p)))
  /\ allItems (run (ScriptJs.populateDateSelector items) p) = allItems p
  /\ gallery (run (ScriptJs.populateDateSelector items) p) = gallery p
  /\ fetches (run (ScriptJs.populateDateSelector items) p) = fetches p.
Proof.
  rewrite populateDateSelector_run. destruct p. cbn -[ScriptJs.dates].
  repeat split.
  - rewrite map_map. cbn. rewrite map_id. apply dates_perm.
  - rewrite length_map.
    rewrite (Permutation_length (dates_perm items)), length_map.
    f_equal. clear. induction items as [| x xs IH]; [reflexivity |].
    cbn. destruct (truthy (date x)); cbn; now rewrite IH.
  - apply Forall_forall. intros o Ho. apply in_map_iff in Ho.
    destruct Ho as (d & <- & _). reflexivity.
Qed.

(** Every date the selector offers shows at least one record when it is
    selected, and every record that has a date can be reached through the
    option of that date. *)
Theorem offered_dates_match {host : Host} (items : list MediaRecord) (p : Page) :
  (forall d t,
      In (d, t) (selOptions (run (ScriptJs.populateDateSelector items) p)) ->
      d <> "" ->
      exists item, In item (ScriptJs.itemsToDisplay items d) /\ date item = str d)
  /\ (forall item,
        In item items -> truthy (date item) = true ->
        (exists t, In (to_string (date item), t)
                     (selOptions (run (ScriptJs.populateDateSelector items) p)))
        /\ In item (ScriptJs.itemsToDisplay items (to_string (date item)))).
Proof.
  rewrite populateDateSelector_run. destruct p. cbn -[ScriptJs.dates].
  assert (Hshown : forall item d, In item items -> date item = str d -> d <> "" ->
                     In item (ScriptJs.itemsToDisplay items d)).
  { intros item d Hitem Hdate Hne.
    unfold ScriptJs.itemsToDisplay. rewrite truthy_str.
    destruct (String.eqb_spec d ""); [contradiction |]. cbn.
    apply filter_In. split; [exact Hitem |].
    rewrite Hdate. apply String.eqb_refl. }
  split.
  - intros d t [Heq | Hin] Hne; [now inversion Heq; subst; elim Hne |].
    apply in_map_iff in Hin. destruct Hin as (d' & Heq & Hin). inversion Heq; subst.
    apply in_dates_iff in Hin. destruct Hin as (item & Hitem & Hdate & _).
    exists item. split; [now apply Hshown | exact Hdate].
  - intros item Hitem Ht.
    destruct (truthy_inv _ Ht) as (s & Hdate & Hne & Hs). rewrite Hs.
    split; [| now apply Hshown].
    exists (ScriptJs.formatDate (str s)). right.
    apply in_map_iff. exists s. split; [reflexivity |].
    apply in_dates_iff. exists item. repeat split; assumption.
Qed.

Lemma offered_dates_match_witness :
  let items := [dated "2021-01-01"; bare; dated "2021-03-05"] in
  exists item,
    In item (ScriptJs.itemsToDisplay items "2021-03-05") /\ date item = str "2021-03-05".
Proof.
  intros items.
  apply (proj1 (@offered_dates_match referenceHost items freshPage)
           "2021-03-05" "March 5, 2021");
    [right; left; reflexivity | discriminate].
Defined.

(** Populating the selector again replaces the options instead of adding
    to them: only the last call counts. *)
Theorem populateDateSelector_replaces {host : Host}
    (first second : list MediaRecord) (p : Page) :
  run (ScriptJs.populateDateSelector second) (run (ScriptJs.populateDateSelector first) p)
  = run (ScriptJs.populateDateSelector second) p.
Proof. rewrite !populateDateSelector_run. destruct p. reflexivity. Qed.

Lemma itemsToDisplay_filter (items : list MediaRecord) (d : string) :
  d <> "" ->
  ScriptJs.itemsToDisplay items d = filter (fun item => strict_eq (date item) d) items.
Proof.
  intros Hne. unfold ScriptJs.itemsToDisplay. rewrite truthy_str.
  destruct (String.eqb_spec d ""); [contradiction | reflexivity].
Qed.

(** A record whose [date] is missing or empty is shown under [All dates]
    and under no date of the selector. *)
Theorem undated_only_under_all (items : list MediaRecord) (item : MediaRecord)
    (d : string) :
  In item items ->
  truthy (date item) = false ->
  In item (ScriptJs.itemsToDisplay items "")
  /\ (d <> "" -> ~ In item (ScriptJs.itemsToDisplay items d)).
Proof.
  intros Hitem Hfalsy. split; [exact Hitem |].
  intros Hne Hin. rewrite (itemsToDisplay_filter items Hne) in Hin.
  apply filter_In in Hin. destruct Hin as [_ Heq].
  destruct (date item) as [| s]; [discriminate |].
  cbn in Heq. apply String.eqb_eq in Heq. subst s.
  unfold truthy in Hfalsy. destruct (String.eqb_spec d ""); [contradiction | discriminate].
Qed.

Lemma undated_only_under_all_witness :
  let items := [dated "2021-01-01"; bare] in
  In bare (ScriptJs.itemsToDisplay items "")
  /\ ~ In bare (ScriptJs.itemsToDisplay items "2021-01-01").
Proof.
  intros items.
  destruct (@undated_only_under_all items bare "2021-01-01") as [Hall Hnot];
    [right; left; reflexivity | reflexivity |].
  split; [exact Hall | apply Hnot; discriminate].
Defined.

(** Filtering what is displayed again by the same date changes nothing,
    and by another date leaves nothing: the dates of the selector split the
    dated records into disjoint groups. *)
Theorem date_groups_disjoint (items : list MediaRecord) (d d' : string) :
  d <> "" -> d' <> "" ->
  ScriptJs.itemsToDisplay (ScriptJs.itemsToDisplay items d) d
  = ScriptJs.itemsToDisplay items d
  /\ (d <> d' -> ScriptJs.itemsToDisplay (ScriptJs.itemsToDisplay items d) d' = []).
Proof.
  intros Hd Hd'.
  rewrite (itemsToDisplay_filter items Hd),
    (itemsToDisplay_filter (filter (fun item => strict_eq (date item) d) items) Hd),
    (itemsToDisplay_filter (filter (fun item => strict_eq (date item) d) items) Hd').
  split.
  - induction items as [| x xs IH]; [reflexivity |].
    cbn. destruct (strict_eq (date x) d) eqn:Hx; [| exact IH].
    cbn. rewrite Hx. now f_equal.
  - intros Hneq. apply filter_none. intros x Hx.
    apply filter_In in Hx. destruct Hx as [_ Hx].
    destruct (date x) as [| s]; [reflexivity |].
    cbn in *. apply String.eqb_eq in Hx. subst s.
    now apply String.eqb_neq.
Qed.

Lemma date_groups_disjoint_witness :
  let items := [dated "2021-01-01"; dated "2021-03-05"; dated "2021-01-01"] in
  ScriptJs.itemsToDisplay (ScriptJs.itemsToDisplay items "2021-01-01") "2021-03-05" = [].
Proof.
  intros items.
  apply (@date_groups_disjoint items "2021-01-01" "2021-03-05"); discriminate.
Defined.

(** ** The order of the dates offered *)

Lemma codeUnitCompare_total (a b : string) :
  (0 < codeUnitCompare b a)%Z -> (codeUnitCompare a b <= 0)%Z.
Proof.
  unfold codeUnitCompare. rewrite (String.compare_antisym a b).
  destruct (String.compare b a); cbn; lia.
Qed.

Lemma dates_descending_witness :
  Sorted (fun a b => (codeUnitCompare b a <= 0)%Z)
    (@ScriptJs.dates referenceHost
       [dated "2021-01-01"; dated "2021-03-05"; bare; dated "2021-02-11"]).
Proof.
  apply (@dates_descending referenceHost). exact codeUnitCompare_total.
Defined.

(** ** The handlers of [script.js] *)

(** Whatever the page and whatever the network answers, the fetch button's
    handler catches every failure and ends with the button enabled and
    labelled [Get Space Images], the selector enabled, and the loading
    placeholder gone from the gallery. *)
Theorem fetch_button_always_ready {host : Host}
    (net : FetchOutcome) (p : Page) :
  fst (ScriptJs.dispatch (ScriptJs.GetImageClick net) p) = Normal tt
  /\ btnDisabled (ScriptJs.handle (ScriptJs.GetImageClick net) p) = false
  /\ btnText (ScriptJs.handle (ScriptJs.GetImageClick net) p) = "Get Space Images"
  /\ selDisabled (ScriptJs.handle (ScriptJs.GetImageClick net) p) = false
  /\ gallery (ScriptJs.handle (ScriptJs.GetImageClick net) p) <> [loadingPlaceholder].
Proof.
  destruct p as [items n bd bt sd sv so g m mo mc mm mt md me ae].
  unfold_click. cbn [snd fst allItems set_btnDisabled set_selDisabled set_btnText set_gallery].
  destruct items as [| x xs]; cbn [length Nat.eqb].
  - cbn [set_fetches fetches]. destruct (fetchCdnJson net) as [data | e].
    + cbn. repeat split.
      destruct data as [| y ys]; cbn; discriminate.
    + cbn. repeat split. discriminate.
  - cbn. repeat split.
    destruct (ScriptJs.itemsToDisplay (x :: xs) sv); cbn; discriminate.
Qed.

(** A first successful load from the fetch button stores the records,
    selects [All dates] whatever was selected before, and shows every
    record: the previous selection does not filter the first gallery. *)
Theorem first_load_shows_all {host : Host}
    (net : FetchOutcome) (data : list MediaRecord) (p : Page) :
  allItems p = [] ->
  fetchCdnJson net = Normal data ->
  allItems (ScriptJs.handle (ScriptJs.GetImageClick net) p) = data
  /\ selValue (ScriptJs.handle (ScriptJs.GetImageClick net) p) = ""
  /\ selOptions (ScriptJs.handle (ScriptJs.GetImageClick net) p)
     = ("", "All dates")
       :: map (fun d => (d, ScriptJs.formatDate (str d))) (ScriptJs.dates data)
  /\ gallery (ScriptJs.handle (ScriptJs.GetImageClick net) p)
     = match data with
       | [] => [noItemsPlaceholder]
       | _ => map ScriptJs.createGalleryItem data
       end.
Proof.
  intros Hempty Hdata.
  destruct p as [items n bd bt sd sv so g m mo mc mm mt md me ae].
  cbn in Hempty. subst items.
  unfold_click. cbn [snd fst allItems set_btnDisabled set_selDisabled set_btnText set_gallery
                     length Nat.eqb set_fetches fetches].
  rewrite Hdata. cbn -[ScriptJs.dates]. repeat split.
Qed.

Lemma first_load_shows_all_witness :
  let before := set_selValue "2024-02-03" freshPage in
  let after := @ScriptJs.handle referenceHost
                 (ScriptJs.GetImageClick (Response 200 (Parsed (JArray [picture; clip]))))
                 before in
  selValue after = ""
  /\ gallery after = map (@ScriptJs.createGalleryItem referenceHost) [picture; clip].
Proof.
  intros before after.
  destruct (@first_load_shows_all referenceHost
              (Response 200 (Parsed (JArray [picture; clip]))) [picture; clip] before
              eq_refl eq_refl) as (_ & Hv & _ & Hg).
  split; [exact Hv | exact Hg].
Defined.

Lemma dateChange_run {host : Host} (d : string) (p : Page) :
  allItems p <> [] ->
  ScriptJs.handle (ScriptJs.DateChange d) p
  = run (ScriptJs.renderGallery (ScriptJs.itemsToDisplay (allItems p) d))
        (set_selValue d p).
Proof.
  intros Hne. destruct p as [items n bd bt sd sv so g m mo mc mm mt md me ae].
  cbn in Hne. destruct items as [| x xs]; [now elim Hne | reflexivity].
Qed.

(** With records stored, a change of the date selector renders the
    records of the chosen date, or the no-items message when there is none;
    it changes only the gallery and the selector's value, so only the last
    change counts, and choosing [All dates] brings every card back. *)
Theorem date_change_renders {host : Host}
    (d d' : string) (p : Page) :
  allItems p <> [] ->
  gallery (ScriptJs.handle (ScriptJs.DateChange d) p)
  = match ScriptJs.itemsToDisplay (allItems p) d with
    | [] => [noItemsPlaceholder]
    | shown => map ScriptJs.createGalleryItem shown
    end
  /\ ScriptJs.handle (ScriptJs.DateChange d) p
     = set_gallery (gallery (ScriptJs.handle (ScriptJs.DateChange d) p)) (set_selValue d p)
  /\ ScriptJs.handle (ScriptJs.DateChange d') (ScriptJs.handle (ScriptJs.DateChange d) p)
     = ScriptJs.handle (ScriptJs.DateChange d') p
  /\ gallery (ScriptJs.handle (ScriptJs.DateChange "")
                (ScriptJs.handle (ScriptJs.DateChange d) p))
     = map ScriptJs.createGalleryItem (allItems p).
Proof.
  intros Hne.
  assert (Hne' : allItems (ScriptJs.handle (ScriptJs.DateChange d) p) <> []).
  { rewrite (dateChange_run d p Hne). destruct p. exact Hne. }
  split; [| split; [| split]].
  - rewrite (dateChange_run d p Hne). destruct p.
    cbn [allItems]. destruct (ScriptJs.itemsToDisplay _ d); reflexivity.
  - rewrite (dateChange_run d p Hne). destruct p. reflexivity.
  - rewrite (dateChange_run d' _ Hne'), (dateChange_run d' p Hne),
      (dateChange_run d p Hne).
    destruct p. reflexivity.
  - rewrite (dateChange_run "" _ Hne'), (dateChange_run d p Hne).
    destruct p as [items n bd bt sd sv so g m mo mc mm mt md me ae].
    cbn in Hne. destruct items as [| x xs]; [now elim Hne | reflexivity].
Qed.

Lemma date_change_renders_witness :
  let loaded := @ScriptJs.handle referenceHost
                  (ScriptJs.PageLoad (Response 200 (Parsed (JArray [picture; clip]))))
                  freshPage in
  gallery (@ScriptJs.handle referenceHost (ScriptJs.DateChange "2024-02-03") loaded)
  = [@ScriptJs.createGalleryItem referenceHost clip]
  /\ gallery (@ScriptJs.handle referenceHost (ScriptJs.DateChange "")
                (@ScriptJs.handle referenceHost
                   (ScriptJs.DateChange "1999-12-31") loaded))
     = map (@ScriptJs.createGalleryItem referenceHost) [picture; clip].
Proof.
  intros loaded.
  assert (Hne : allItems loaded <> []) by discriminate.
  split.
  - exact (proj1 (@date_change_renders referenceHost
                    "2024-02-03" "" loaded Hne)).
  - exact (proj2 (proj2 (proj2 (@date_change_renders referenceHost
                                  "1999-12-31" "" loaded Hne)))).
Defined.

(** The load at page start never touches the gallery or the fetch button
    and always leaves the selector enabled.  When it succeeds it stores the
    records and fills the selector; when it fails it shows nothing to the
    user: records, options and selection stay as they were. *)
Theorem page_load_is_silent {host : Host}
    (net : FetchOutcome) (p : Page) :
  fst (ScriptJs.dispatch (ScriptJs.PageLoad net) p) = Normal tt
  /\ gallery (ScriptJs.handle (ScriptJs.PageLoad net) p) = gallery p
  /\ btnDisabled (ScriptJs.handle (ScriptJs.PageLoad net) p) = btnDisabled p
  /\ btnText (ScriptJs.handle (ScriptJs.PageLoad net) p) = btnText p
  /\ selDisabled (ScriptJs.handle (ScriptJs.PageLoad net) p) = false
  /\ fetches (ScriptJs.handle (ScriptJs.PageLoad net) p) = S (fetches p)
  /\ match fetchCdnJson net with
     | Normal data =>
         allItems (ScriptJs.handle (ScriptJs.PageLoad net) p) = data
         /\ selValue (ScriptJs.handle (ScriptJs.PageLoad net) p) = ""
         /\ selOptions (ScriptJs.handle (ScriptJs.PageLoad net) p)
            = ("", "All dates")
              :: map (fun d => (d, ScriptJs.formatDate (str d))) (ScriptJs.dates data)
     | Throw _ =>
         ScriptJs.handle (ScriptJs.PageLoad net) p
         = set_selDisabled false (set_fetches (S (fetches p)) p)
     end.
Proof.
  destruct p as [items n bd bt sd sv so g m mo mc mm mt md me ae].
  unfold ScriptJs.handle, run, ScriptJs.dispatch, ScriptJs.loadDataAndPopulateDates,
    try_catch, await_fetchCdnJson, lift, bind, modify, gets.
  cbn [set_selDisabled set_fetches fetches].
  destruct (fetchCdnJson net) as [data | e]; cbn -[ScriptJs.dates]; repeat split.
Qed.

(** ** The modal, further *)

(** For a record that is not a video, what [openModal] appends to the media
    container depends on the record alone: at most one node, never an
    embedded player, nothing when the record has neither [url] nor [hdurl];
    and the page it leaves is the page before with the modal's own elements
    overwritten. *)
Lemma openModalWith_result (dateText : value -> string) (item : MediaRecord) :
  strict_eq (media_type item) "video" = false ->
  exists media,
    (forall p, modal_ready p ->
               openModalWith dateText item p = (Normal tt, shown dateText item media p))
    /\ length media <= 1
    /\ Forall no_player media
    /\ (truthy (url item) = false -> truthy (hdurl item) = false -> media = []).
Proof.
  intros Hvid.
  destruct (strict_eq (media_type item) "image") eqn:Himg;
    destruct (truthy (hdurl item)) eqn:Hhd;
    destruct (truthy (url item)) eqn:Hurl;
    eexists;
    (split;
     [ intros p Hready; ready p Hready;
       unfold shown; unfold_js;
       rewrite ?truthy_or_value, ?Himg, ?Hvid, ?Hhd, ?Hurl;
       cbn [andb orb]; js_step; destruct mc; reflexivity
     | split; [cbn; lia |];
       split;
       [ repeat first [ apply Forall_nil
                      | apply Forall_cons
                      | split
                      | cbn [tag_of children_of]; discriminate ]
       | intros H1 H2; try discriminate; reflexivity ] ]).
Qed.

Lemma shown_ready (dateText : value -> string) (item : MediaRecord)
    (media : list Node) (p : Page) :
  modal_ready (shown dateText item media p).
Proof. destruct p. repeat split; discriminate. Qed.

Lemma aborted_ready (dateText : value -> string) (item : MediaRecord)
    (media : list Node) (p : Page) :
  modal_ready p -> modal_ready (aborted dateText item media p).
Proof.
  intros H. ready p H. repeat split; discriminate.
Qed.

Lemma closeModal_ready (p : Page) : modal_ready p -> modal_ready (run closeModal p).
Proof. intros H. ready p H. repeat split; discriminate. Qed.

(** What an earlier [openModal] left, completed or not, does not show in
    what a later one leaves. *)
Lemma shown_overwrites (dateText : value -> string) (earlier item : MediaRecord)
    (m1 m2 : list Node) (p : Page) :
  modal_ready p ->
  shown dateText item m2 (shown dateText earlier m1 p) = shown dateText item m2 p
  /\ shown dateText item m2 (run closeModal (shown dateText earlier m1 p))
     = shown dateText item m2 p
  /\ shown dateText item m2 (aborted dateText earlier m1 p) = shown dateText item m2 p
  /\ shown dateText item m2 (run closeModal (aborted dateText earlier m1 p))
     = shown dateText item m2 p.
Proof.
  intros H. ready p H. destruct mc; repeat split.
Qed.

(** Opening the modal on a record that is not a video replaces what the
    modal showed: after another record was opened (also a video, whose
    [openModal] threw half-way), or after that and a close, [openModal]
    leaves the same page as on the page before them.  Nothing of an earlier
    record stays. *)
Theorem modal_content_replaced {host : Host}
    (earlier item : MediaRecord) (p : Page) :
  modal_ready p ->
  strict_eq (media_type item) "video" = false ->
  run (ScriptJs.openModal item) (run (ScriptJs.openModal earlier) p)
  = run (ScriptJs.openModal item) p
  /\ run (ScriptJs.openModal item) (run closeModal (run (ScriptJs.openModal earlier) p))
     = run (ScriptJs.openModal item) p.
Proof.
  intros Hready Hitem.
  destruct (openModalWith_result ScriptJs.formatDate item Hitem) as (m2 & H2 & _).
  unfold run, ScriptJs.openModal.
  destruct (strict_eq (media_type earlier) "video") eqn:Hearlier.
  - apply strict_eq_true in Hearlier.
    rewrite (openModalWith_video ScriptJs.formatDate earlier Hready Hearlier). cbn [snd].
    set (m1 := if truthy (thumbnail_url earlier)
               then [videoThumb earlier (thumbnail_url earlier)] else []).
    fold (run closeModal (aborted ScriptJs.formatDate earlier m1 p)).
    rewrite (H2 _ (aborted_ready ScriptJs.formatDate earlier m1 Hready)),
      (H2 _ (closeModal_ready (aborted_ready ScriptJs.formatDate earlier m1 Hready))),
      (H2 p Hready).
    cbn [snd].
    destruct (shown_overwrites ScriptJs.formatDate earlier item m1 m2 Hready)
      as (_ & _ & H3 & H4).
    split; assumption.
  - destruct (openModalWith_result ScriptJs.formatDate earlier Hearlier) as (m1 & H1 & _).
    rewrite (H1 p Hready). cbn [snd].
    fold (run closeModal (shown ScriptJs.formatDate earlier m1 p)).
    rewrite (H2 _ (shown_ready ScriptJs.formatDate earlier m1 p)),
      (H2 _ (closeModal_ready (shown_ready ScriptJs.formatDate earlier m1 p))),
      (H2 p Hready).
    cbn [snd].
    destruct (shown_overwrites ScriptJs.formatDate earlier item m1 m2 Hready)
      as (H3 & H4 & _).
    split; assumption.
Qed.

Lemma modal_content_replaced_witness :
  run (@ScriptJs.openModal referenceHost picture)
      (run (@ScriptJs.openModal referenceHost talk) freshPage)
  = run (@ScriptJs.openModal referenceHost picture) freshPage.
Proof.
  exact (proj1 (@modal_content_replaced referenceHost talk picture
                  freshPage freshPage_ready eq_refl)).
Defined.

(** [openModal] never embeds a player by itself: whatever the record, and
    whether it completes or throws, the media container holds at most two
    nodes after it, and neither they nor their children are an [iframe]. *)
Theorem no_automatic_embed {host : Host}
    (item : MediaRecord) (p : Page) :
  modal_ready p ->
  exists media,
    modalMedia (run (ScriptJs.openModal item) p) = Some media
    /\ length media <= 2
    /\ Forall no_player media.
Proof.
  intros Hready. unfold run, ScriptJs.openModal.
  destruct (strict_eq (media_type item) "video") eqn:Hvid.
  - apply strict_eq_true in Hvid.
    rewrite (openModalWith_video ScriptJs.formatDate item Hready Hvid). cbn [snd].
    eexists. split; [apply aborted_keeps |].
    destruct (truthy (thumbnail_url item)); cbn; (split; [lia |]);
      repeat first [ apply Forall_nil | apply Forall_cons | split
                   | cbn [tag_of children_of]; discriminate ].
  - destruct (openModalWith_result ScriptJs.formatDate item Hvid)
      as (media & H & Hlen & Hno & _).
    exists media. rewrite (H p Hready).
    split; [destruct p; reflexivity | split; [lia | exact Hno]].
Qed.

Lemma no_automatic_embed_witness :
  exists media,
    modalMedia (run (@ScriptJs.openModal referenceHost talk) freshPage)
    = Some media
    /\ length media <= 2 /\ Forall no_player media.
Proof.
  exact (@no_automatic_embed referenceHost talk freshPage freshPage_ready).
Defined.

(** Records that are not videos, whichever of their fields are missing.
    The card of every record is built, with the title or [Untitled], the
    formatted date or the empty string, and no media element when there is
    no [url].  For a record whose [media_type] is not [video], on a page
    whose modal is ready, [openModal] completes, called directly or by a
    click on the rendered card: it writes the title or [Untitled], the
    formatted date or the empty string, the explanation or the empty
    string, shows the modal, and appends at most one media element, none
    when the record has neither [url] nor [hdurl]. *)
Theorem render_degrades_unless_video {host : Host} (item : MediaRecord) (p : Page) :
  modal_ready p ->
  strict_eq (media_type item) "video" = false ->
  (exists props media,
     ScriptJs.createGalleryItem item
     = El "div" props [CardClick item; CardKeydown item]
         (media ++ [cardTitle (or_default (title item) "Untitled");
                    cardDate (ScriptJs.formatDate (date item))])
     /\ length media <= 1
     /\ (truthy (url item) = false -> media = []))
  /\ (truthy (title item) = false -> or_default (title item) "Untitled" = "Untitled")
  /\ (truthy (date item) = false -> ScriptJs.formatDate (date item) = "")
  /\ (truthy (explanation item) = false -> or_default (explanation item) "" = "")
  /\ (exists p'',
        ScriptJs.dispatch (ScriptJs.CardClicked 0 false)
          (set_gallery [ScriptJs.createGalleryItem item] p) = (Normal tt, p''))
  /\ (exists p' media,
        ScriptJs.openModal item p = (Normal tt, p')
        /\ modalTitle p' = Some (or_default (title item) "Untitled")
        /\ modalDate p' = Some (ScriptJs.formatDate (date item))
        /\ modalExplanation p' = Some (or_default (explanation item) "")
        /\ modal p' = Some (str "false")
        /\ modalMedia p' = Some media
        /\ length media <= 1
        /\ (truthy (url item) = false -> truthy (hdurl item) = false -> media = [])).
Proof.
  intros Hready Hvid.
  split; [apply createGalleryItem_shape |].
  split; [apply or_default_missing |].
  split; [intros Hd; unfold ScriptJs.formatDate; now rewrite Hd |].
  split; [apply or_default_missing |].
  destruct (openModalWith_result ScriptJs.formatDate item Hvid)
    as (media & H & Hlen & _ & Hnone).
  split.
  - rewrite card_click_opens. unfold ScriptJs.openModal.
    rewrite (H _ (set_gallery_ready [ScriptJs.createGalleryItem item] Hready)).
    eexists. reflexivity.
  - exists (shown ScriptJs.formatDate item media p), media.
    unfold ScriptJs.openModal. rewrite (H p Hready).
    destruct p. repeat split; assumption.
Qed.

Lemma render_degrades_unless_video_witness :
  exists p',
    @ScriptJs.openModal referenceHost bare freshPage = (Normal tt, p')
    /\ modalTitle p' = Some "Untitled" /\ modalDate p' = Some ""
    /\ modalExplanation p' = Some "" /\ modalMedia p' = Some [].
Proof.
  destruct (@render_degrades_unless_video referenceHost bare freshPage
              freshPage_ready eq_refl)
    as (_ & _ & _ & _ & _ & p' & media & Hopen & Ht & Hd & He & _ & Hm & _ & Hnone).
  exists p'. rewrite Hm, (Hnone eq_refl eq_refl).
  repeat split; assumption.
Defined.

(** On a page without the modal element, no click or key on a card, on the
    close button, on the overlay or on the window changes anything, and
    none of these handlers throws. *)
Theorem without_modal_nothing_happens {host : Host}
    (e : ScriptJs.Event) (p : Page) :
  modal p = None ->
  modal_event e = true ->
  ScriptJs.dispatch e p = (Normal tt, p).
Proof.
  intros Hm He.
  assert (Hclose : closeModal p = (Normal tt, p)).
  { unfold closeModal, bind, gets, ret. now rewrite Hm. }
  assert (Hkey : forall key, windowKeydown key p = (Normal tt, p)).
  { intros key. unfold windowKeydown, bind, gets, ret. rewrite Hm.
    now destruct (String.eqb key "Escape"). }
  assert (Hopen : forall item, ScriptJs.openModal item p = (Normal tt, p)).
  { intros item. now apply openModalWith_no_modal. }
  destruct e as [net | net | v | i b | i key b | | | | key]; try discriminate;
    unfold ScriptJs.dispatch, bind, gets, ret.
  - destruct (ScriptJs.cardListener i p) as [item |]; [| reflexivity].
    unfold cardClick. destruct b; [reflexivity | apply Hopen].
  - destruct (ScriptJs.cardListener i p) as [item |]; [| apply Hkey].
    unfold reported, cardKeydown.
    destruct (String.eqb key "Enter" || String.eqb key " "); [destruct b |];
      cbn [snd ret]; rewrite ?Hopen; apply Hkey.
  - destruct (modalCloseBtn p); [exact Hclose | reflexivity].
  - destruct (modalOverlay p); [exact Hclose | reflexivity].
  - apply Hkey.
Qed.

Lemma without_modal_nothing_happens_witness :
  let p := set_gallery [@ScriptJs.createGalleryItem referenceHost picture]
             (set_modal None freshPage) in
  @ScriptJs.dispatch referenceHost (ScriptJs.CardClicked 0 false) p
  = (Normal tt, p).
Proof.
  intros p.
  exact (@without_modal_nothing_happens referenceHost
           (ScriptJs.CardClicked 0 false) p eq_refl eq_refl).
Defined.

(** [openModal] checks for the modal element only.  When the media
    container is missing it throws before writing anything; when the
    container exists and the title element is missing it throws after it
    has emptied the container, and the modal is not shown. *)
Theorem modal_missing_parts {host : Host}
    (item : MediaRecord) (p : Page) :
  modal p <> None ->
  (modalMedia p = None ->
   ScriptJs.openModal item p = (Throw (TypeError "Cannot set properties of null"), p))
  /\ (modalMedia p <> None -> modalTitle p = None ->
      ScriptJs.openModal item p
      = (Throw (TypeError "Cannot set properties of null"), set_modalMedia (Some []) p)
      /\ modal (run (ScriptJs.openModal item) p) = modal p).
Proof.
  intros Hm. destruct p as [items n bd bt sd sv so g m mo mc mm mt md me ae].
  cbn in Hm. destruct m as [a |]; [| now elim Hm].
  split.
  - cbn. intros ->. reflexivity.
  - cbn. intros Hmm ->. destruct mm as [kids |]; [| now elim Hmm].
    split; reflexivity.
Qed.

Lemma modal_missing_parts_witness :
  let p := set_modalTitle None
             (set_modalMedia (Some [modalImg picture (str "http://x/old.png")]) freshPage) in
  modalMedia (run (@ScriptJs.openModal referenceHost clip) p) = Some []
  /\ modal (run (@ScriptJs.openModal referenceHost clip) p) = Some (str "true").
Proof.
  intros p.
  destruct (@modal_missing_parts referenceHost clip p) as [_ H];
    [discriminate |].
  destruct H as [Hthrow Hmodal]; [discriminate | reflexivity |].
  unfold run in *. rewrite Hthrow in *. split; [reflexivity | exact Hmodal].
Defined.

(** Enter and Space on a card do what a click on it does, also in what
    they leave alone when a link inside the card has the focus; any other
    key but Escape does nothing. *)
Theorem keyboard_activation {host : Host}
    (i : nat) (onAnchor : bool) (key : string) (p : Page) :
  ScriptJs.handle (ScriptJs.CardKey i "Enter" onAnchor) p
  = ScriptJs.handle (ScriptJs.CardClicked i onAnchor) p
  /\ ScriptJs.handle (ScriptJs.CardKey i " " onAnchor) p
     = ScriptJs.handle (ScriptJs.CardClicked i onAnchor) p
  /\ (key <> "Enter" -> key <> " " -> key <> "Escape" ->
      ScriptJs.handle (ScriptJs.CardKey i key onAnchor) p = p).
Proof.
  assert (Hwin : forall k q, k <> "Escape" -> windowKeydown k q = (Normal tt, q)).
  { intros k q Hk. unfold windowKeydown, bind, gets, ret.
    apply String.eqb_neq in Hk. now rewrite Hk. }
  unfold ScriptJs.handle, run, ScriptJs.dispatch, bind, gets, ret, reported,
    cardKeydown, cardClick.
  destruct (ScriptJs.cardListener i p) as [item |]; cbn [fst snd].
  - split; [| split].
    + cbn [String.eqb Ascii.eqb Bool.eqb orb]. now rewrite Hwin by discriminate.
    + cbn [String.eqb Ascii.eqb Bool.eqb orb]. now rewrite Hwin by discriminate.
    + intros H1 H2 H3. apply String.eqb_neq in H1, H2.
      rewrite H1, H2. cbn [orb snd]. now rewrite Hwin.
  - split; [| split].
    + now rewrite Hwin by discriminate.
    + now rewrite Hwin by discriminate.
    + intros _ _ H3. now rewrite Hwin.
Qed.

Lemma keyboard_activation_witness :
  let shown := run (@ScriptJs.renderGallery referenceHost [picture]) freshPage in
  @ScriptJs.handle referenceHost (ScriptJs.CardKey 0 "Tab" false) shown = shown.
Proof.
  intros shown.
  apply (proj2 (proj2 (@keyboard_activation referenceHost 0 false "Tab" shown)));
    discriminate.
Defined.

(** The window's key listener acts only on Escape while the modal is marked
    open: with any other key, or with the [aria-hidden] attribute absent or
    different from [false], nothing changes.  Closing twice is closing
    once. *)
Theorem keys_ignored_unless_open {host : Host}
    (key : string) (p : Page) :
  (key <> "Escape" \/ modal p <> Some (str "false") ->
   ScriptJs.handle (ScriptJs.Keydown key) p = p)
  /\ (modal p <> None ->
      run closeModal (run closeModal p) = run closeModal p
      /\ ScriptJs.handle (ScriptJs.Keydown key) (run closeModal p) = run closeModal p).
Proof.
  split.
  - intros H. unfold ScriptJs.handle, run, ScriptJs.dispatch, windowKeydown, bind, gets, ret.
    destruct (String.eqb_spec key "Escape") as [-> | Hk]; [| reflexivity].
    destruct H as [H | H]; [now elim H |].
    destruct (modal p) as [[| h] |]; try reflexivity.
    destruct (String.eqb_spec h "false") as [-> | _]; [now elim H | reflexivity].
  - intros Hm. destruct p as [items n bd bt sd sv so g m mo mc mm mt md me ae].
    cbn in Hm. destruct m as [a |]; [| now elim Hm].
    destruct mm; (split; [reflexivity |]);
      unfold ScriptJs.handle, run, ScriptJs.dispatch, windowKeydown, bind, gets, ret;
      cbn; destruct (String.eqb key "Escape"); reflexivity.
Qed.

Lemma keys_ignored_unless_open_witness :
  @ScriptJs.handle referenceHost (ScriptJs.Keydown "Escape") freshPage = freshPage.
Proof.
  apply (proj1 (@keys_ignored_unless_open referenceHost "Escape" freshPage)).
  right. discriminate.
Defined.

(** ** Loading, in the variant and in general *)

(** [fetchCdnJson] returns a sequence exactly when the response has a
    status from 200 to 299 and a body that parses to an array, and the
    sequence is that array, whole. *)
Theorem fetch_success_iff (net : FetchOutcome) (data : list MediaRecord) :
  fetchCdnJson net = Normal data
  <-> exists status,
        net = Response status (Parsed (JArray data)) /\ 200 <= status <= 299.
Proof.
  split.
  - destruct net as [| status body]; [discriminate |]. cbn.
    destruct (ok status) eqn:Hok; [| discriminate]. cbn.
    destruct body as [| [items |]]; try discriminate.
    intros [= ->]. exists status. split; [reflexivity |].
    unfold ok in Hok. apply andb_prop in Hok. destruct Hok as [H1 H2].
    apply Nat.leb_le in H1, H2. lia.
  - intros (status & -> & Hlo & Hhi). cbn.
    assert (Hok : ok status = true).
    { unfold ok. apply andb_true_intro. split; apply Nat.leb_le; assumption. }
    now rewrite Hok.
Qed.

(** In the variant without a date selector the fetch button's handler
    never throws, stores nothing, and ends with the button enabled and
    labelled [Fetch Space Images]; the gallery shows what this fetch
    returned (cards, the no-items message or the error message) and nothing
    of an earlier fetch. *)
Theorem part000_click_shows_latest
    (net earlier : FetchOutcome) (p : Page) :
  fst (Part000.dispatch (Part000.GetImageClick net) p) = Normal tt
  /\ btnDisabled (Part000.handle (Part000.GetImageClick net) p) = false
  /\ btnText (Part000.handle (Part000.GetImageClick net) p) = "Fetch Space Images"
  /\ allItems (Part000.handle (Part000.GetImageClick net) p) = allItems p
  /\ gallery (Part000.handle (Part000.GetImageClick net) p)
     = match fetchCdnJson net with
       | Normal [] => [noItemsPlaceholder]
       | Normal data => map Part000.createGalleryItem data
       | Throw _ => [errorPlaceholder]
       end
  /\ gallery (Part000.handle (Part000.GetImageClick net)
                (Part000.handle (Part000.GetImageClick earlier) p))
     = gallery (Part000.handle (Part000.GetImageClick net) p).
Proof.
  destruct p as [items n bd bt sd sv so g m mo mc mm mt md me ae].
  unfold Part000.handle, run, Part000.dispatch, Part000.getImageBtnClick,
    try_catch_finally, await_fetchCdnJson, lift, bind, modify, Part000.renderGallery.
  cbn [set_btnDisabled set_btnText set_gallery set_fetches fetches snd fst].
  destruct (fetchCdnJson earlier) as [old | e0];
    destruct (fetchCdnJson net) as [[| x xs] | e]; cbn; repeat split.
Qed.

(** In the variant the modal shows the date as the feed delivered it, not
    formatted, next to the same defaults for title and explanation: on a
    page whose modal is ready these texts are written for every record.
    For a record that is not a video [openModal] then completes and shows
    the modal; for a video record it throws at a helper, as in [script.js],
    and the modal is not shown. *)
Theorem part000_modal_texts (item : MediaRecord) (p : Page) :
  modal_ready p ->
  modalTitle (run (Part000.openModal item) p) = Some (or_default (title item) "Untitled")
  /\ modalDate (run (Part000.openModal item) p) = Some (or_default (date item) "")
  /\ modalExplanation (run (Part000.openModal item) p)
     = Some (or_default (explanation item) "")
  /\ (strict_eq (media_type item) "video" = false ->
      fst (Part000.openModal item p) = Normal tt
      /\ modal (run (Part000.openModal item) p) = Some (str "false"))
  /\ (media_type item = str "video" ->
      (exists name, fst (Part000.openModal item p) = Throw (ReferenceError name))
      /\ modal (run (Part000.openModal item) p) = modal p).
Proof.
  intros Hready. unfold run, Part000.openModal.
  destruct (strict_eq (media_type item) "video") eqn:Hvid.
  - pose proof (strict_eq_true _ _ Hvid) as Hv.
    rewrite (openModalWith_video (fun d => or_default d "") item Hready Hv).
    cbn [fst snd]. destruct p.
    split; [reflexivity | split; [reflexivity | split; [reflexivity | split]]].
    + discriminate.
    + intros _. split; [eauto | reflexivity].
  - destruct (openModalWith_result (fun d => or_default d "") item Hvid) as (media & H & _).
    rewrite (H p Hready). cbn [fst snd]. destruct p.
    split; [reflexivity | split; [reflexivity | split; [reflexivity | split]]].
    + intros _. split; reflexivity.
    + intros Hv. rewrite Hv in Hvid. discriminate.
Qed.

Lemma part000_modal_texts_witness :
  modalDate (run (Part000.openModal picture) freshPage) = Some "2024-01-01"
  /\ modalDate (run (@ScriptJs.openModal referenceHost picture) freshPage)
     = Some "January 1, 2024".
Proof.
  split; [| reflexivity].
  destruct (@part000_modal_texts picture freshPage freshPage_ready)
    as (_ & Hd & _).
  exact Hd.
Defined.

(** ** The fact panel *)

Lemma factText_kept (e : FactEvent) (s : FactPanel) :
  factText s <> None -> factText (factStep e s) <> None.
Proof.
  intros Ht. destruct e as [fact |]; cbn.
  - unfold getFactBtnClick. destruct (factText s); [| now elim Ht].
    destruct (hasVisible s); discriminate.
  - destruct (timers s); assumption.
Qed.

Lemma settling_kept (e : FactEvent) (s : FactPanel) :
  settling s -> settling (factStep e s).
Proof.
  intros Hs. destruct e as [fact |]; cbn.
  - unfold getFactBtnClick. destruct (factText s); [| exact Hs].
    destruct (hasVisible s); [right | left]; cbn; repeat split; lia.
  - destruct (timers s) as [| k] eqn:Hk; [exact Hs |].
    left. split; reflexivity.
Qed.

Lemma factRun_kept (es : list FactEvent) (s : FactPanel) :
  factText s <> None -> settling s ->
  factText (factRun es s) <> None /\ settling (factRun es s).
Proof.
  revert s. induction es as [| e es IH]; intros s Ht Hs; [now split |].
  cbn. apply IH; [now apply factText_kept | now apply settling_kept].
Qed.

Lemma factRun_app (es es' : list FactEvent) (s : FactPanel) :
  factRun (es ++ es') s = factRun es' (factRun es s).
Proof. revert s. induction es as [| e es IH]; intros s; [reflexivity | apply IH]. Qed.

(** Once the fact button was clicked, from whatever state of the class
    list, the panel is shown or has a timer on its way to show it; so when
    no timer is left the panel is visible and not hidden, and it shows the
    fact of the last click. *)
Theorem fact_panel_settles (before after : list FactEvent) (fact : string)
    (s : FactPanel) :
  factText s <> None ->
  settling (factRun (before ++ FactClick fact :: after) s)
  /\ (timers (factRun (before ++ FactClick fact :: after) s) = 0 ->
      hasVisible (factRun (before ++ FactClick fact :: after) s) = true
      /\ hasHidden (factRun (before ++ FactClick fact :: after) s) = false)
  /\ (forallb (fun e => negb (is_click e)) after = true ->
      factText (factRun (before ++ FactClick fact :: after) s) = Some fact).
Proof.
  intros Ht. rewrite factRun_app. cbn [factRun].
  set (s1 := factRun before s).
  assert (Ht1 : factText s1 <> None).
  { subst s1. clear fact after. revert s Ht.
    induction before as [| e es IH]; intros s Ht; [exact Ht |].
    cbn. apply IH. now apply factText_kept. }
  assert (Hclick : factText (factStep (FactClick fact) s1) = Some fact
                   /\ settling (factStep (FactClick fact) s1)).
  { cbn. unfold getFactBtnClick. destruct (factText s1); [| now elim Ht1].
    destruct (hasVisible s1); cbn; (split; [reflexivity |]);
      [right | left]; cbn; repeat split; lia. }
  destruct Hclick as [Hfact Hset].
  assert (Ht2 : factText (factStep (FactClick fact) s1) <> None)
    by (rewrite Hfact; discriminate).
  destruct (factRun_kept after Ht2 Hset) as [_ Hfinal].
  split; [exact Hfinal | split].
  - intros Hzero. destruct Hfinal as [Hv | (_ & _ & Hpos)]; [exact Hv | lia].
  - clear Hfinal Hset Ht2. revert Hfact. generalize (factStep (FactClick fact) s1).
    induction after as [| e es IH]; intros s2 Hfact Hno; [exact Hfact |].
    cbn in Hno. apply andb_prop in Hno. destruct Hno as [He Hes].
    cbn [factRun]. apply IH; [| exact Hes].
    destruct e as [f |]; [discriminate |].
    cbn. destruct (timers s2); exact Hfact.
Qed.

Lemma fact_panel_settles_witness :
  let s := mkFact (Some "") false false 0 in
  let s' := factRun ([] ++ FactClick "a" :: [FactClick "b"; FactClick "c"; TimerFires]) s in
  hasVisible s' = true /\ hasHidden s' = false.
Proof.
  intros s s'.
  apply (proj1 (proj2 (@fact_panel_settles [] [FactClick "b"; FactClick "c"; TimerFires]
                         "a" s ltac:(discriminate))));
    reflexivity.
Defined.

(** Without the text element the fact button's handler throws before it
    touches the class list or schedules a timer: with no timer scheduled,
    no sequence of clicks changes the panel, so a hidden panel is never
    shown. *)
Theorem fact_panel_needs_text (es : list FactEvent) (s : FactPanel) :
  factText s = None ->
  timers s = 0 ->
  factRun es s = s.
Proof.
  intros Ht Hz. induction es as [| e es IH]; [reflexivity |].
  cbn [factRun].
  assert (Hstep : factStep e s = s).
  { destruct e as [fact |]; cbn.
    - unfold getFactBtnClick. now rewrite Ht.
    - now rewrite Hz. }
  rewrite Hstep. exact IH.
Qed.

Lemma fact_panel_needs_text_witness :
  let s := mkFact None false true 0 in
  factRun [FactClick "a"; TimerFires; FactClick "b"] s = s.
Proof.
  intros s. exact (@fact_panel_needs_text _ s eq_refl eq_refl).
Defined.

(** ** What the page shows against what it stores *)

Section KeepsView.
Variables A B : Type.

Lemma view_ret (a : A) : keeps_view (ret a).
Proof. intros p. repeat split. Qed.

Lemma view_gets (f : Page -> A) : keeps_view (gets f).
Proof. intros p. repeat split. Qed.

Lemma view_bind (m : M A) (k : A -> M B) :
  keeps_view m -> (forall a, keeps_view (k a)) -> keeps_view (bind m k).
Proof.
  intros Hm Hk p. unfold bind. specialize (Hm p).
  destruct (m p) as [[a | e] p1]; cbn [snd] in *; [| exact Hm].
  destruct (Hk a p1) as (H1 & H2 & H3 & H4). destruct Hm as (H5 & H6 & H7 & H8).
  repeat split; congruence.
Qed.

Lemma view_assign (get : Page -> option A) (set : option A -> Page -> Page)
    (f : A -> A) :
  (forall x p, allItems (set x p) = allItems p /\ selOptions (set x p) = selOptions p
               /\ selValue (set x p) = selValue p /\ gallery (set x p) = gallery p) ->
  keeps_view (assign get set f).
Proof.
  intros Hset p. unfold assign. destruct (get p); cbn [snd]; [apply Hset | repeat split].
Qed.
End KeepsView.

Lemma view_modify (f : Page -> Page) :
  (forall p, allItems (f p) = allItems p /\ selOptions (f p) = selOptions p
             /\ selValue (f p) = selValue p /\ gallery (f p) = gallery p) ->
  keeps_view (modify f).
Proof. intros Hf p. apply Hf. Qed.

Lemma view_reported (m : M unit) : keeps_view m -> keeps_view (reported m).
Proof. intros Hm p. apply Hm. Qed.

Ltac view :=
  repeat match goal with
         | |- keeps_view (bind _ _) => apply view_bind; [| intros ?]
         | |- keeps_view (ret _) => apply view_ret
         | |- keeps_view (gets _) => apply view_gets
         | |- keeps_view (reported _) => apply view_reported
         | |- keeps_view (unbound _) => intros ?; repeat split
         | |- keeps_view (modify _) =>
             apply view_modify; intros []; repeat split
         | |- keeps_view (assign _ _ _) =>
             apply view_assign; intros ? []; repeat split
         | |- keeps_view (if ?c then _ else _) => destruct c
         | |- keeps_view (match ?c with _ => _ end) => destruct c
         end.

Lemma view_closeModal : keeps_view closeModal.
Proof. unfold closeModal. view. Qed.

Lemma view_windowKeydown (key : string) : keeps_view (windowKeydown key).
Proof. unfold windowKeydown. view; apply view_closeModal. Qed.

Lemma view_openModalWith (dateText : value -> string)
    (item : MediaRecord) :
  keeps_view (openModalWith dateText item).
Proof. unfold openModalWith, modalMedia_appendChild. view. Qed.

(** The handlers of the modal and of the cards touch neither the record
    set, nor the selector, nor the gallery. *)
Lemma modal_events_keep_view {host : Host} (e : ScriptJs.Event) :
  modal_event e = true \/ e = ScriptJs.PlayInlineClick ->
  keeps_view (ScriptJs.dispatch e).
Proof.
  intros [He | ->].
  - destruct e as [net | net | v | i b | i key b | | | | key]; try discriminate;
      unfold ScriptJs.dispatch, cardClick, cardKeydown; view;
      try apply view_windowKeydown; try apply view_closeModal;
      apply view_openModalWith.
  - unfold ScriptJs.dispatch, playInline. view.
Qed.



(** What a load at page start does to the record set and the options. *)
Lemma page_load_cases {host : Host} (net : FetchOutcome) (p : Page) :
  (exists data,
      fetchCdnJson net = Normal data
      /\ allItems (ScriptJs.handle (ScriptJs.PageLoad net) p) = data
      /\ selOptions (ScriptJs.handle (ScriptJs.PageLoad net) p)
         = ("", "All dates")
           :: map (fun d => (d, ScriptJs.formatDate (str d))) (ScriptJs.dates data))
  \/ (allItems (ScriptJs.handle (ScriptJs.PageLoad net) p) = allItems p
      /\ selOptions (ScriptJs.handle (ScriptJs.PageLoad net) p) = selOptions p).
Proof.
  destruct p as [items n bd bt sd sv so g m mo mc mm mt md me ae].
  unfold ScriptJs.handle, run, ScriptJs.dispatch, ScriptJs.loadDataAndPopulateDates,
    try_catch, await_fetchCdnJson, lift, bind, modify, gets.
  cbn [set_selDisabled set_fetches fetches].
  destruct (fetchCdnJson net) as [data | e]; cbn -[ScriptJs.dates].
  - left. exists data. repeat split.
  - right. split; reflexivity.
Qed.

(** What the fetch button does to the record set and the options. *)
Lemma click_cases {host : Host} (net : FetchOutcome) (p : Page) :
  (exists data,
      allItems (ScriptJs.handle (ScriptJs.GetImageClick net) p) = data
      /\ selOptions (ScriptJs.handle (ScriptJs.GetImageClick net) p)
         = ("", "All dates")
           :: map (fun d => (d, ScriptJs.formatDate (str d))) (ScriptJs.dates data))
  \/ (allItems (ScriptJs.handle (ScriptJs.GetImageClick net) p) = allItems p
      /\ selOptions (ScriptJs.handle (ScriptJs.GetImageClick net) p) = selOptions p).
Proof.
  destruct p as [items n bd bt sd sv so g m mo mc mm mt md me ae].
  unfold_click.
  cbn [snd fst allItems set_btnDisabled set_selDisabled set_btnText set_gallery].
  destruct items as [| x xs]; cbn [length Nat.eqb].
  - cbn [set_fetches fetches]. destruct (fetchCdnJson net) as [data | e]; cbn -[ScriptJs.dates].
    + left. exists data. split; reflexivity.
    + right. split; reflexivity.
  - right. cbn. split; reflexivity.
Qed.

Lemma selector_sync_step {host : Host}
    (e : ScriptJs.Event) (p : Page) :
  selector_in_sync p -> selector_in_sync (ScriptJs.handle e p).
Proof.
  intros Hsync.
  destruct e as [net | net | v | i b | i key b | | | | key].
  - destruct (page_load_cases net p) as [(data & Hdata & Hitems & Hopts) | (Hitems & Hopts)];
      unfold selector_in_sync; rewrite Hopts, Hitems; [reflexivity | exact Hsync].
  - destruct (click_cases net p) as [(data & Hitems & Hopts) | (Hitems & Hopts)];
      unfold selector_in_sync; rewrite Hopts, Hitems; [reflexivity | exact Hsync].
  - unfold selector_in_sync.
    destruct p as [items n bd bt sd sv so g m mo mc mm mt md me ae].
    destruct items; exact Hsync.
  - destruct (@modal_events_keep_view host (ScriptJs.CardClicked i b) (or_introl eq_refl) p)
      as (Ha & Ho & _).
    unfold selector_in_sync, ScriptJs.handle, run. now rewrite Ha, Ho.
  - destruct (@modal_events_keep_view host (ScriptJs.CardKey i key b) (or_introl eq_refl) p)
      as (Ha & Ho & _).
    unfold selector_in_sync, ScriptJs.handle, run. now rewrite Ha, Ho.
  - destruct (@modal_events_keep_view host ScriptJs.PlayInlineClick (or_intror eq_refl) p)
      as (Ha & Ho & _).
    unfold selector_in_sync, ScriptJs.handle, run. now rewrite Ha, Ho.
  - destruct (@modal_events_keep_view host ScriptJs.CloseClick (or_introl eq_refl) p)
      as (Ha & Ho & _).
    unfold selector_in_sync, ScriptJs.handle, run. now rewrite Ha, Ho.
  - destruct (@modal_events_keep_view host ScriptJs.OverlayClick (or_introl eq_refl) p)
      as (Ha & Ho & _).
    unfold selector_in_sync, ScriptJs.handle, run. now rewrite Ha, Ho.
  - destruct (@modal_events_keep_view host (ScriptJs.Keydown key) (or_introl eq_refl) p)
      as (Ha & Ho & _).
    unfold selector_in_sync, ScriptJs.handle, run. now rewrite Ha, Ho.
Qed.

(** Each half of a suspended handler, and each listener that does not
    suspend, changes the options only together with the record set. *)
Lemma selector_sync_action {host : Host} (a : Action) (s : Session) :
  selector_in_sync (page s) -> selector_in_sync (page (step a s)).
Proof.
  destruct s as [p lp cp]. cbn [page]. intros Hsync.
  destruct a as [| net | | net | e]; cbn [step page loadPending clickPending].
  - destruct lp; [exact Hsync |]. cbn [page].
    destruct p. exact Hsync.
  - destruct lp; [| exact Hsync]. cbn [page].
    destruct p as [items n bd bt sd sv so g m mo mc mm mt md me ae].
    unfold selector_in_sync, run, loadAnswer, try_catch, lift, bind, modify, gets,
      ScriptJs.populateDateSelector in *.
    destruct (fetchCdnJson net); [reflexivity | exact Hsync].
  - destruct (btnDisabled p || cp); [exact Hsync |].
    destruct p as [items n bd bt sd sv so g m mo mc mm mt md me ae].
    unfold selector_in_sync, clickStart, finallyReady, ScriptJs.renderGallery,
      bind, modify, gets, ret in *.
    cbn [snd fst allItems set_btnDisabled set_selDisabled set_btnText set_gallery].
    destruct items as [| x xs]; exact Hsync.
  - destruct cp; [| exact Hsync]. cbn [page].
    destruct p as [items n bd bt sd sv so g m mo mc mm mt md me ae].
    unfold selector_in_sync, run, clickAnswer, finallyReady, try_catch_finally,
      lift, bind, modify, gets, ScriptJs.populateDateSelector, ScriptJs.renderGallery in *.
    destruct (fetchCdnJson net); [reflexivity | exact Hsync].
  - destruct (synchronous e); [| exact Hsync]. now apply selector_sync_step.
Qed.

Lemma selector_sync_steps {host : Host} (acts : list Action) (s : Session) :
  selector_in_sync (page s) -> selector_in_sync (page (steps acts s)).
Proof.
  revert s. induction acts as [| a acts IH]; intros s Hsync; [exact Hsync |].
  cbn [steps]. apply IH. now apply selector_sync_action.
Qed.

(** Through a whole session the selector offers [All dates] and the dates
    of the stored records: the options change only together with the
    record set.  This holds when every answer arrives before the next
    event, and also however the answers of the two fetches fall between
    the other events. *)
Theorem selector_stays_in_sync {host : Host}
    (es : list ScriptJs.Event) (p : Page) :
  selector_in_sync p ->
  selector_in_sync (ScriptJs.handle_all es p)
  /\ (forall acts lp cp,
        selector_in_sync (page (steps acts (mkSession p lp cp)))).
Proof.
  intros Hsync. split.
  - revert p Hsync. induction es as [| e es IH]; intros p Hsync; [exact Hsync |].
    cbn [ScriptJs.handle_all]. apply IH. now apply selector_sync_step.
  - intros acts lp cp. now apply selector_sync_steps.
Qed.

Lemma selector_stays_in_sync_witness :
  let feed := Response 200 (Parsed (JArray [picture; clip])) in
  let late := Response 200 (Parsed (JArray [talk])) in
  @selector_in_sync referenceHost
    (@ScriptJs.handle_all referenceHost
       [ScriptJs.PageLoad Rejected; ScriptJs.DateChange "x"; ScriptJs.GetImageClick feed;
        ScriptJs.CardClicked 0 false; ScriptJs.CloseClick] freshPage)
  /\ @selector_in_sync referenceHost
       (page (@steps referenceHost
                [LoadStart; ClickStart; ClickAnswer feed;
                 Sync (ScriptJs.DateChange "2024-02-03"); LoadAnswer late]
                (mkSession freshPage false false))).
Proof.
  intros feed late.
  destruct (@selector_stays_in_sync referenceHost
              [ScriptJs.PageLoad Rejected; ScriptJs.DateChange "x";
               ScriptJs.GetImageClick feed; ScriptJs.CardClicked 0 false;
               ScriptJs.CloseClick] freshPage eq_refl) as [Hseq Hany].
  split; [exact Hseq | apply Hany].
Defined.




